(** * mlx-video-UI: the browser client of the job and progress subsystem

    A shallow embedding of the TypeScript client (the API module, the
    generation and training forms, the progress indicator and the parameter
    panel), with the properties of the job orchestration specification
    stated and settled over it.

    JavaScript values are embedded as a small value type, thrown errors as
    an explicit completion, React state as records threaded through the
    handlers. Numbers are the rationals that doubles stand for, with the
    rounding of each operation written out where an operation is not
    exact; strings are held as their UTF-8 bytes. *)

From Stdlib Require Import ZArith QArith Qround Qminmax Qabs Qpower Lia Ascii DecimalString.
From stdpp Require Import base option list strings gmap.

Set Warnings "-register-all".

Local Close Scope Q_scope.
Local Open Scope string_scope.
Local Open Scope Z_scope.

(** ** Doubles

    A finite double is a rational [m * 2^e] with [|m| < 2^53] and
    [e >= -1074]; an arithmetic operation yields the double nearest to
    the exact result, a tie going to the even mantissa. *)

Module Double.

Definition pow2 (e : Z) : Q := (2 ^ e)%Q.

(** The binary logarithm of a positive rational, rounded down: the
    difference of the logarithms of numerator and denominator, or one
    less. *)
Definition ilog2 (x : Q) : Z :=
  let l := Z.log2 (Qnum x) - Z.log2 (Z.pos (Qden x)) in
  if Qle_bool (pow2 l) x then l else l - 1.

(** The exponent of the last mantissa bit of the doubles around a positive
    [x]: 52 below its logarithm, and -1074 in the subnormal range. *)
Definition exponent (x : Q) : Z := Z.max (ilog2 x - 52) (-1074).

(** The nearest integer, a tie going to the even one. *)
Definition rne (x : Q) : Z :=
  let f := Qfloor x in
  match (x - inject_Z f ?= 1 # 2)%Q with
  | Lt => f
  | Gt => f + 1
  | Eq => if Z.even f then f else f + 1
  end.

Definition mantissa (x : Q) : Z := rne (x / pow2 (exponent x)).

(** The double nearest to [x], for [x] below the overflow threshold. *)
Definition fl (x : Q) : Q :=
  match (x ?= 0)%Q with
  | Eq => 0%Q
  | Gt => (inject_Z (mantissa x) * pow2 (exponent x))%Q
  | Lt => (- (inject_Z (mantissa (- x)) * pow2 (exponent (- x))))%Q
  end.

(** From [2^1024 - 2^970] on, the nearest double is an infinity. *)
Definition overflows (x : Q) : bool :=
  Qle_bool (pow2 1024 - pow2 970) (Qabs x).

(** The result of an operation on finite doubles whose exact result is
    [x] (no operation here yields NaN). *)
Inductive t : Type :=
| Finite (q : Q)
| Infinite (negative : bool).

Definition round (x : Q) : t :=
  if overflows x then Infinite (negb (Qle_bool 0 x)) else Finite (fl x).

End Double.

(** ** Number.prototype.toString

    The decimal text of a number: the shortest digit string that still
    reads back as the same double (the nearest to it among the shortest,
    an even last digit on a tie), laid out plainly or with an exponent. *)

Module Number_prototype.

Definition pow10 (e : Z) : Q := (10 ^ e)%Q.

(** The decimal logarithm of a positive rational, rounded down, found
    next to the estimate that the binary logarithm gives. *)
Definition ilog10 (x : Q) : Z :=
  let g := Double.ilog2 x * 30103 / 100000 in
  let fits t := Qle_bool (pow10 t) x && negb (Qle_bool (pow10 (t + 1)) x) in
  if fits g then g
  else if fits (g + 1) then g + 1
  else if fits (g - 1) then g - 1
  else g + 2.

(** Whether the real [x] is read as the positive double [m]: it lies
    within half a step of [m] on either side (the step below a power of
    two being half the step above), the ends counting when the mantissa
    of [m] is even. *)
Definition rounds_to (m x : Q) : bool :=
  let e := Double.exponent m in
  let M := Double.mantissa m in
  let up := Double.pow2 (e - 1) in
  let down := if (M =? 2 ^ 52) && (-1074 <? e) then Double.pow2 (e - 2) else up in
  if Z.even M
  then Qle_bool (m - down) x && Qle_bool x (m + up)
  else negb (Qle_bool x (m - down)) && negb (Qle_bool (m + up) x).

(** The decimals [s * 10^e10] of exactly [k] digits that are read as [m],
    [t] being the decimal logarithm of [m]. *)
Definition candidates (m : Q) (t k : Z) : list (Z * Z) :=
  e10 ← [t - k + 1; t - k + 2];
  s ← [Qfloor (m / pow10 e10); Qfloor (m / pow10 e10) + 1];
  if (10 ^ (k - 1) <=? s) && (s <? 10 ^ k) && rounds_to m (inject_Z s * pow10 e10)
  then [(s, e10)] else [].

Definition distance (m : Q) (c : Z * Z) : Q := Qabs (inject_Z c.1 * pow10 c.2 - m).

Definition closer (m : Q) (c best : Z * Z) : Z * Z :=
  match (distance m c ?= distance m best)%Q with
  | Lt => c
  | Gt => best
  | Eq => if Z.even c.1 then c else best
  end.

(** The digits and the decimal exponent for [m], trying [k] digits, then
    one more; seventeen digits always suffice. *)
Fixpoint shortest (m : Q) (t : Z) (k : Z) (fuel : nat) : Z * Z :=
  match fuel with
  | O => (0, 0)
  | S fuel =>
      match candidates m t k with
      | c :: cs => foldr (closer m) c cs
      | [] => shortest m t (k + 1) fuel
      end
  end.

Definition digits (s : Z) : string := NilZero.string_of_uint (N.to_uint (Z.to_N s)).

Fixpoint zeros (n : nat) : string :=
  match n with
  | O => EmptyString
  | S n => String "0"%char (zeros n)
  end.

Definition first (n : nat) (s : string) : string := String.substring 0 n s.
Definition after (n : nat) (s : string) : string :=
  String.substring n (String.length s - n) s.

(** The layout of the digits [s] with decimal exponent [e10]: with [n] the
    position of the decimal point, plain digits up to 21 places, a
    fraction down to six zeros after the point, an exponent otherwise. *)
Definition layout (s e10 : Z) : string :=
  let d := digits s in
  let k := Z.of_nat (String.length d) in
  let n := e10 + k in
  if (k <=? n) && (n <=? 21) then d +:+ zeros (Z.to_nat (n - k))
  else if (0 <? n) && (n <=? 21) then
    first (Z.to_nat n) d +:+ "." +:+ after (Z.to_nat n) d
  else if (-6 <? n) && (n <=? 0) then "0." +:+ zeros (Z.to_nat (- n)) +:+ d
  else
    let e := n - 1 in
    let sign := if e <? 0 then "-" else "+" in
    let mant := if k =? 1 then d else first 1 d +:+ "." +:+ after 1 d in
    mant +:+ "e" +:+ sign +:+ digits (Z.abs e).

Definition of_positive (x : Q) : string :=
  if Double.overflows x then "Infinity"
  else
    let m := Double.fl x in
    if Qeq_bool m 0 then "0"
    else let (s, e10) := shortest m (ilog10 m) 1 17 in layout s e10.

Definition toString (x : Q) : string :=
  match (x ?= 0)%Q with
  | Eq => "0"
  | Gt => of_positive x
  | Lt => let r := of_positive (- x)%Q in if String.eqb r "0" then r else "-" +:+ r
  end.

End Number_prototype.

(** ** JavaScript values *)

(** A number is a double, given as the rational it stands for (a JSON
    literal as the double it parses to); the fields of an object are its
    own properties, each key once. *)
Inductive JValue : Type :=
| JUndefined
| JNull
| JBool (b : bool)
| JNum (q : Q)
| JStr (s : string)
| JArr (items : list JValue)
| JObj (fields : list (string * JValue)).

(** ToBoolean, as used by [||] and [if]. *)
Definition truthy (v : JValue) : bool :=
  match v with
  | JUndefined | JNull => false
  | JBool b => b
  | JNum q => negb (Qnum q =? 0)%Z
  | JStr s => negb (String.eqb s "")
  | JArr _ | JObj _ => true
  end.

(** [a || b] *)
Definition js_or (a b : JValue) : JValue := if truthy a then a else b.

(** [v === "s"] against a string literal. *)
Definition is_str (v : JValue) (s : string) : bool :=
  match v with
  | JStr t => String.eqb t s
  | _ => false
  end.

Fixpoint lookup_field (k : string) (fields : list (string * JValue)) : JValue :=
  match fields with
  | [] => JUndefined
  | (k', v) :: rest => if String.eqb k k' then v else lookup_field k rest
  end.

(** ToString of a value parsed from JSON: an array is its elements joined
    by commas, null and undefined elements giving nothing; an object is
    the fixed text of [Object.prototype.toString]. *)
Fixpoint ToString (v : JValue) : string :=
  match v with
  | JUndefined => "undefined"
  | JNull => "null"
  | JBool true => "true"
  | JBool false => "false"
  | JNum q => Number_prototype.toString q
  | JStr s => s
  | JArr items =>
      (fix join (items : list JValue) : string :=
         match items with
         | [] => EmptyString
         | item :: rest =>
             let text :=
               match item with
               | JUndefined | JNull => EmptyString
               | _ => ToString item
               end in
             match rest with
             | [] => text
             | _ :: _ => text +:+ "," +:+ join rest
             end
         end) items
  | JObj _ => "[object Object]"
  end.

(** ** Thrown errors *)

(** An Error keeps the text of what it was made from, not the value. *)
Inductive Exn : Type :=
| TypeError                  (* property read on null or undefined, failed fetch *)
| SyntaxError                (* JSON.parse / response.json() on malformed text *)
| SecurityError              (* local storage that the browser refuses to open *)
| Error (message : string).  (* new Error(message) *)

(** [new Error(arg)]: the message is ToString of the argument, and empty
    when the argument is undefined. *)
Definition new_Error (arg : JValue) : Exn :=
  match arg with
  | JUndefined => Error EmptyString
  | _ => Error (ToString arg)
  end.

Inductive Completion (A : Type) : Type :=
| Normal (a : A)
| Throw (e : Exn).
Arguments Normal {A} a.
Arguments Throw {A} e.

#[global] Instance completion_ret : MRet Completion := @Normal.
#[global] Instance completion_bind : MBind Completion := fun A B f c =>
  match c with
  | Normal a => f a
  | Throw e => Throw e
  end.

(** [v.k]: reading a property of null or undefined throws; the keys read by
    this client name no built-in property, so every other primitive yields
    undefined. *)
Definition get (v : JValue) (k : string) : Completion JValue :=
  match v with
  | JUndefined | JNull => Throw TypeError
  | JObj fields => Normal (lookup_field k fields)
  | _ => Normal JUndefined
  end.

(** ** The API module *)

(** A settled [fetch]: the [ok] flag and the outcome of [response.json()]. *)
Record Response : Type := mkResponse {
  ok : bool;
  json : Completion JValue
}.

Module Api.

(** The shared shape of the mutating calls: a non-ok response is turned
    into [new Error(error.detail || fallback)]. *)
Definition throw_detail {A} (response : Response) (fallback : string) : Completion A :=
  error ← json response;
  detail ← get error "detail";
  Throw (new_Error (js_or detail (JStr fallback))).

Definition startGeneration (fetched : Completion Response) : Completion JValue :=
  response ← fetched;
  if negb (ok response) then throw_detail response "Failed to start generation"
  else json response.

Definition stopTraining (fetched : Completion Response) : Completion unit :=
  response ← fetched;
  if negb (ok response) then throw_detail response "Failed to stop training"
  else Normal tt.

Definition deleteVideo (fetched : Completion Response) : Completion unit :=
  response ← fetched;
  if negb (ok response) then throw_detail response "Failed to delete video"
  else Normal tt.

(** The shared shape of the listing calls: [data.key || []]. *)
Definition list_of (key : string) (fetched : Completion Response) : Completion JValue :=
  response ← fetched;
  if negb (ok response) then Normal (JArr [])
  else
    data ← json response;
    found ← get data key;
    Normal (js_or found (JArr [])).

Definition listCheckpoints := list_of "checkpoints".
Definition listLoras := list_of "loras".
Definition listVideos := list_of "videos".

(** The claim that a listing call gives the empty list for every ok
    response whose body holds no array under the expected field. *)
Definition lacking_array_gives_empty
    (lister : Completion Response → Completion JValue) (key : string) : Prop :=
  ∀ (response : Response) (data : JValue),
    ok response = true →
    json response = Normal data →
    (∀ items, get data key ≠ Normal (JArr items)) →
    lister (Normal response) = Normal (JArr []).



(** [response.json().catch(() => ({}))] *)
Definition json_or_empty (response : Response) : JValue :=
  match json response with
  | Normal v => v
  | Throw _ => JObj []
  end.

(** The shape of the calls that read the error body tolerantly. *)
Definition throw_detail_tolerant {A} (response : Response) (fallback : string)
  : Completion A :=
  detail ← get (json_or_empty response) "detail";
  Throw (new_Error (js_or detail (JStr fallback))).

Definition getJobStatus (fetched : Completion Response) : Completion JValue :=
  response ← fetched;
  if negb (ok response) then throw_detail_tolerant response "Failed to fetch job status"
  else json response.


Definition startTraining (fetched : Completion Response) : Completion JValue :=
  response ← fetched;
  if negb (ok response) then throw_detail response "Failed to start training"
  else json response.

Definition getTrainingStatus (fetched : Completion Response) : Completion JValue :=
  response ← fetched;
  if negb (ok response) then throw_detail response "Failed to get training status"
  else json response.

(** The shared shape of the two uploads: [data.path] of an ok response. *)
Definition upload (fallback : string) (fetched : Completion Response)
  : Completion JValue :=
  response ← fetched;
  if negb (ok response) then throw_detail response fallback
  else
    data ← json response;
    get data "path".

Definition uploadImage := upload "Failed to upload image".
Definition uploadVideo := upload "Failed to upload video".

(** The two system calls throw a fixed message without reading the body. *)
Definition getHardwareInfo (fetched : Completion Response) : Completion JValue :=
  response ← fetched;
  if negb (ok response) then Throw (new_Error (JStr "Failed to fetch hardware info"))
  else json response.

Definition getDefaultSettings (fetched : Completion Response) : Completion JValue :=
  response ← fetched;
  if negb (ok response) then Throw (new_Error (JStr "Failed to fetch defaults"))
  else json response.

End Api.

(** ** Handlers: client state threaded through code that may throw

    A state write made before a throw is kept. *)

Definition Eff (S A : Type) : Type := S → S * Completion A.

#[global] Instance eff_ret {S} : MRet (Eff S) := fun A a s => (s, Normal a).
#[global] Instance eff_bind {S} : MBind (Eff S) := fun A B f m s =>
  match m s with
  | (s', Normal a) => f a s'
  | (s', Throw e) => (s', Throw e)
  end.

Definition lift {S A} (c : Completion A) : Eff S A := fun s => (s, c).
Definition modify {S} (f : S → S) : Eff S unit := fun s => (f s, Normal tt).

(** [try { body } catch (e) { handler }] *)
Definition try_catch {S A} (body : Eff S A) (handler : Exn → Eff S A) : Eff S A :=
  fun s =>
    match body s with
    | (s', Normal a) => (s', Normal a)
    | (s', Throw e) => handler e s'
    end.

(** The state left by a handler, whether it returned or threw. *)
Definition exec {S A} (m : Eff S A) (s : S) : S := fst (m s).

(** What is shown as the error text: a value stored as it is, or the
    [message] of a caught error. *)
Inductive ErrorValue : Type :=
| Value (v : JValue)
| MessageOf (e : Exn).

(** Events of one WebSocket, in the order the browser dispatches them. *)
Inductive WsEvent : Type :=
| WsMessage (data : string)
| WsError
| WsClose.

(** [String.prototype.trim] leaves nothing exactly when the string is made
    of white space and line terminators only: in UTF-8, the single bytes
    U+0009 to U+000D and U+0020, the two bytes of U+00A0, and the three
    bytes of U+1680, U+2000 to U+200A, U+2028, U+2029, U+202F, U+205F,
    U+3000 and U+FEFF. *)
Definition is_white (c : ascii) : bool :=
  match c with
  | " "%char | "009"%char | "010"%char | "011"%char | "012"%char | "013"%char => true
  | _ => false
  end.

Definition is_white2 (c1 c2 : ascii) : bool :=
  (N_of_ascii c1 =? 194)%N && (N_of_ascii c2 =? 160)%N.

Definition is_white3 (c1 c2 c3 : ascii) : bool :=
  let b1 := N_of_ascii c1 in
  let b2 := N_of_ascii c2 in
  let b3 := N_of_ascii c3 in
  ((b1 =? 225) && (b2 =? 154) && (b3 =? 128)
   || (b1 =? 226) && (b2 =? 128)
      && ((128 <=? b3) && (b3 <=? 138) || (b3 =? 168) || (b3 =? 169) || (b3 =? 175))
   || (b1 =? 226) && (b2 =? 129) && (b3 =? 159)
   || (b1 =? 227) && (b2 =? 128) && (b3 =? 128)
   || (b1 =? 239) && (b2 =? 187) && (b3 =? 191))%N.

Fixpoint blank (s : string) : bool :=
  match s with
  | EmptyString => true
  | String c1 rest1 =>
      if is_white c1 then blank rest1
      else
        match rest1 with
        | EmptyString => false
        | String c2 rest2 =>
            if is_white2 c1 c2 then blank rest2
            else
              match rest2 with
              | EmptyString => false
              | String c3 rest3 => is_white3 c1 c2 c3 && blank rest3
              end
        end
  end.

Module GenerationParams.
(** The required fields of the interface; the optional ones are not read by
    the handlers below. *)
Inductive Pipeline : Type := distilled | dev | keyframe | ic_lora.
Record t : Type := mk {
  prompt : string;
  height : Z;
  width : Z;
  num_frames : Z;
  seed : Z;
  fps : Z;
  pipeline : Pipeline
}.
End GenerationParams.

Module GenerationJob.
(** [status: "pending" | "processing" | "completed" | "error"] *)
Inductive status : Type := pending | processing | completed | error.
End GenerationJob.

Module TrainingJob.
(** [status: "pending" | "training" | "completed" | "error" | "stopped"] *)
Inductive status : Type := pending | training | completed | error | stopped.
End TrainingJob.

(** *** connectWebSocket *)

Module Socket.
Section Connect.
Context {St : Type}.
(** [JSON.parse], [console.error] and the three callbacks handed to
    [connectWebSocket]. *)
Variable JSON_parse : string → Completion JValue.
Variable console_error : Eff St unit.
Variable onMessage : JValue → Eff St unit.
Variable onError : Eff St unit.
Variable onClose : Eff St unit.

Definition onmessage (data : string) : Eff St unit :=
  try_catch
    (update ← lift (JSON_parse data); onMessage update)
    (fun _ => console_error).

Definition onerror : Eff St unit := console_error;; onError.

Definition onclose : Eff St unit := onClose.

Definition dispatch (ev : WsEvent) : Eff St unit :=
  match ev with
  | WsMessage data => onmessage data
  | WsError => onerror
  | WsClose => onclose
  end.

(** Each event runs to its end before the next one; what a callback
    leaves in the state stays. *)
Definition run (events : list WsEvent) (s : St) : St :=
  foldl (fun s ev => exec (dispatch ev) s) s events.
End Connect.
End Socket.

(** ** The generation form *)

Module GenerationHistory.
(** One entry of the history list ([timestamp], the clock reading at
    completion, is not represented). *)
Record t : Type := mk {
  id : JValue;
  params : GenerationParams.t;
  videoPath : JValue
}.
End GenerationHistory.

Module VideoGenerator.

Module Status.
Inductive t : Type := idle | pending | processing | completed | error.
End Status.

(** The component's state hooks, followed by what the component does to its
    surroundings: the progress sockets it opened (by job id) and the number
    of lines written with [console.error]. *)
Record State : Type := mkState {
  status : Status.t;
  progress : JValue;
  currentStep : JValue;
  error : ErrorValue;
  videoPath : JValue;
  history : list GenerationHistory.t;
  sockets : list JValue;
  console : nat
}.

Definition initial : State :=
  mkState Status.idle (JNum 0) (JStr "") (Value JUndefined) JUndefined [] [] 0.

Definition setStatus (v : Status.t) : Eff State unit :=
  modify (fun s => mkState v (progress s) (currentStep s) (error s) (videoPath s)
                     (history s) (sockets s) (console s)).
Definition setProgress (v : JValue) : Eff State unit :=
  modify (fun s => mkState (status s) v (currentStep s) (error s) (videoPath s)
                     (history s) (sockets s) (console s)).
Definition setCurrentStep (v : JValue) : Eff State unit :=
  modify (fun s => mkState (status s) (progress s) v (error s) (videoPath s)
                     (history s) (sockets s) (console s)).
Definition setError (v : ErrorValue) : Eff State unit :=
  modify (fun s => mkState (status s) (progress s) (currentStep s) v (videoPath s)
                     (history s) (sockets s) (console s)).
Definition setVideoPath (v : JValue) : Eff State unit :=
  modify (fun s => mkState (status s) (progress s) (currentStep s) (error s) v
                     (history s) (sockets s) (console s)).
Definition setHistory (f : list GenerationHistory.t → list GenerationHistory.t)
  : Eff State unit :=
  modify (fun s => mkState (status s) (progress s) (currentStep s) (error s) (videoPath s)
                     (f (history s)) (sockets s) (console s)).
Definition openSocket (jobId : JValue) : Eff State unit :=
  modify (fun s => mkState (status s) (progress s) (currentStep s) (error s) (videoPath s)
                     (history s) (sockets s ++ [jobId]) (console s)).
Definition console_error : Eff State unit :=
  modify (fun s => mkState (status s) (progress s) (currentStep s) (error s) (videoPath s)
                     (history s) (sockets s) (S (console s))).

(** The message callback that [handleGenerate] hands to [connectWebSocket];
    [job] and [params] are the values its closure holds. *)
Definition onMessage (job : JValue) (params : GenerationParams.t) (update : JValue)
  : Eff State unit :=
  type ← lift (get update "type");
  if is_str type "progress" then
    setStatus Status.processing;;
    p ← lift (get update "progress");
    setProgress (js_or p (JNum 0));;
    step ← lift (get update "current_step");
    setCurrentStep (js_or step (JStr "Processing..."))
  else if is_str type "complete" then
    setStatus Status.completed;;
    setProgress (JNum 100);;
    out ← lift (get update "output_path");
    setVideoPath out;;
    jobId ← lift (get job "job_id");
    out' ← lift (get update "output_path");
    setHistory (fun prev => GenerationHistory.mk jobId params out' :: take 9 prev)
  else if is_str type "error" then
    setStatus Status.error;;
    e ← lift (get update "error");
    setError (Value e)
  else mret tt.

Definition onError : Eff State unit := setError (Value (JStr "Connection lost")).
Definition onClose : Eff State unit := mret tt.

(** The socket of one generation job, with the callbacks above installed. *)
Definition dispatch (JSON_parse : string → Completion JValue)
    (job : JValue) (params : GenerationParams.t) : WsEvent → Eff State unit :=
  Socket.dispatch JSON_parse console_error (onMessage job params) onError onClose.

Definition run (JSON_parse : string → Completion JValue)
    (job : JValue) (params : GenerationParams.t) : list WsEvent → State → State :=
  Socket.run JSON_parse console_error (onMessage job params) onError onClose.

(** [handleGenerate], up to the point where the socket is open; [fetched] is
    the outcome of the POST made by [startGeneration]. *)
Definition handleGenerate (params : GenerationParams.t) (fetched : Completion Response)
  : Eff State unit :=
  if blank (GenerationParams.prompt params) then mret tt
  else
    setStatus Status.pending;;
    setProgress (JNum 0);;
    setCurrentStep (JStr "Starting generation...");;
    setError (Value JUndefined);;
    setVideoPath JUndefined;;
    try_catch
      (job ← lift (Api.startGeneration fetched);
       jobId ← lift (get job "job_id");
       openSocket jobId)
      (fun e =>
         setStatus Status.error;;
         setError (MessageOf e)).

Definition isGenerating (s : State) : bool :=
  match status s with
  | Status.processing | Status.pending => true
  | _ => false
  end.

(** A job's status stored in the status hook ([setStatus(job.status)]). *)
Definition of_job (status : GenerationJob.status) : Status.t :=
  match status with
  | GenerationJob.pending => Status.pending
  | GenerationJob.processing => Status.processing
  | GenerationJob.completed => Status.completed
  | GenerationJob.error => Status.error
  end.

(** The state hooks alone: what the component renders from. *)
Definition hooks (s : State) :=
  (status s, progress s, currentStep s, error s, videoPath s, history s).

(** A streamed message that the message callback has no branch for: text
    that does not parse, a parsed value whose [type] cannot be read, or a
    [type] that is none of the three handled. *)
Definition unrecognized (JSON_parse : string → Completion JValue) (data : string)
  : bool :=
  match JSON_parse data with
  | Throw _ => true
  | Normal update =>
      match get update "type" with
      | Throw _ => true
      | Normal type =>
          negb (is_str type "progress" || is_str type "complete" || is_str type "error")
      end
  end.

(** [loadFromHistory]: the result is the parameter bundle handed to
    [setParams]. *)
Definition loadFromHistory (item : GenerationHistory.t) : Eff State GenerationParams.t :=
  (if truthy (GenerationHistory.videoPath item) then
     setVideoPath (GenerationHistory.videoPath item);;
     setStatus Status.completed
   else mret tt);;
  mret (GenerationHistory.params item).

(** [canGenerate]: a prompt that is not blank and no job under way. *)
Definition canGenerate (params : GenerationParams.t) (s : State) : bool :=
  negb (blank (GenerationParams.prompt params)) && negb (isGenerating s).

(** A message that ends a job for the form: one that parses and whose type
    is complete or error. *)
Definition is_terminal_message (JSON_parse : string → Completion JValue) (ev : WsEvent)
  : bool :=
  match ev with
  | WsMessage data =>
      match JSON_parse data with
      | Normal update =>
          match get update "type" with
          | Normal type => is_str type "complete" || is_str type "error"
          | Throw _ => false
          end
      | Throw _ => false
      end
  | WsError | WsClose => false
  end.

End VideoGenerator.

(** ** The training form *)

Module TrainingForm.

Record State : Type := mkState {
  status : TrainingJob.status;
  currentStep : JValue;
  totalSteps : JValue;
  currentLoss : JValue;
  eta : JValue;
  error : ErrorValue;
  jobId : JValue
}.

Definition initial : State :=
  mkState TrainingJob.pending (JNum 0) (JNum 0) JNull JNull (Value JNull) JNull.

Definition setStatus (v : TrainingJob.status) : Eff State unit :=
  modify (fun s => mkState v (currentStep s) (totalSteps s) (currentLoss s) (eta s)
                     (error s) (jobId s)).
Definition setCurrentStep (v : JValue) : Eff State unit :=
  modify (fun s => mkState (status s) v (totalSteps s) (currentLoss s) (eta s)
                     (error s) (jobId s)).
Definition setCurrentLoss (v : JValue) : Eff State unit :=
  modify (fun s => mkState (status s) (currentStep s) (totalSteps s) v (eta s)
                     (error s) (jobId s)).
Definition setEta (v : JValue) : Eff State unit :=
  modify (fun s => mkState (status s) (currentStep s) (totalSteps s) (currentLoss s) v
                     (error s) (jobId s)).
Definition setError (v : ErrorValue) : Eff State unit :=
  modify (fun s => mkState (status s) (currentStep s) (totalSteps s) (currentLoss s) (eta s)
                     v (jobId s)).

(** The message callback of the training socket. *)
Definition onMessage (update : JValue) : Eff State unit :=
  type ← lift (get update "type");
  if is_str type "progress" then
    setStatus TrainingJob.training;;
    step ← lift (get update "step");
    setCurrentStep (js_or step (JNum 0));;
    loss ← lift (get update "loss");
    setCurrentLoss (js_or loss JNull);;
    e ← lift (get update "eta");
    setEta (js_or e JNull)
  else if is_str type "complete" then
    setStatus TrainingJob.completed
  else if is_str type "error" then
    setStatus TrainingJob.error;;
    e ← lift (get update "error");
    setError (Value (js_or e (JStr "Training failed")))
  else mret tt.

(** [handleStopTraining]; [fetched] is the outcome of the POST made by
    [stopTraining], consulted only when a request is sent. *)
Definition handleStopTraining (fetched : Completion Response) : Eff State unit :=
  fun s =>
    if truthy (jobId s) then
      try_catch
        (lift (Api.stopTraining fetched);;
         setStatus TrainingJob.stopped)
        (fun e => setError (MessageOf e)) s
    else (s, Normal tt).

Definition isTraining (s : State) : bool :=
  match status s with
  | TrainingJob.training | TrainingJob.pending => true
  | _ => false
  end.

(** The server accepted the stop request: [stopTraining] returned. *)
Definition accepted (fetched : Completion Response) : Prop :=
  Api.stopTraining fetched = Normal tt.

Definition setJobId (v : JValue) : Eff State unit :=
  modify (fun s => mkState (status s) (currentStep s) (totalSteps s) (currentLoss s) (eta s)
                     (error s) v).
Definition setTotalSteps (v : JValue) : Eff State unit :=
  modify (fun s => mkState (status s) (currentStep s) v (currentLoss s) (eta s)
                     (error s) (jobId s)).

(** The fields of the training parameters that the handlers read. *)
Record TrainingParams : Type := mkParams {
  data_root : string;
  steps : Z;
  lora_target_modules : list string
}.

(** The form together with what it does to its surroundings: the training
    sockets it opened (by job id) and the number of lines written with
    [console.error]. *)
Record World : Type := mkWorld {
  form : State;
  sockets : list JValue;
  console : nat
}.

Definition on_form {A} (m : Eff State A) : Eff World A :=
  fun w =>
    let (s', r) := m (form w) in
    (mkWorld s' (sockets w) (console w), r).

Definition openSocket (id : JValue) : Eff World unit :=
  modify (fun w => mkWorld (form w) (sockets w ++ [id]) (console w)).

Definition console_error : Eff World unit :=
  modify (fun w => mkWorld (form w) (sockets w) (S (console w))).

(** [handleStartTraining]; [fetched] is the outcome of the POST made by
    [startTraining], consulted only when a request is sent. *)
Definition handleStartTraining (params : TrainingParams) (fetched : Completion Response)
  : Eff World unit :=
  if String.eqb (data_root params) "" then
    on_form (setError (Value (JStr "Please specify a data root directory")))
  else
    on_form (setStatus TrainingJob.pending);;
    on_form (setError (Value JNull));;
    on_form (setCurrentStep (JNum 0));;
    on_form (setCurrentLoss JNull);;
    try_catch
      (job ← lift (Api.startTraining fetched);
       id ← lift (get job "job_id");
       on_form (setJobId id);;
       on_form (setTotalSteps (JNum (inject_Z (steps params))));;
       id' ← lift (get job "job_id");
       openSocket id')
      (fun e =>
         on_form (setStatus TrainingJob.error);;
         on_form (setError (MessageOf e))).

(** The socket of one training job, with the callbacks of
    [handleStartTraining] installed. *)
Definition dispatch (JSON_parse : string → Completion JValue) : WsEvent → Eff World unit :=
  Socket.dispatch JSON_parse console_error
    (fun update => on_form (onMessage update))
    (on_form (setError (Value (JStr "Connection lost"))))
    (mret tt).

Definition run (JSON_parse : string → Completion JValue) : list WsEvent → World → World :=
  Socket.run JSON_parse console_error
    (fun update => on_form (onMessage update))
    (on_form (setError (Value (JStr "Connection lost"))))
    (mret tt).

(** What can happen to the form on the page: a click on the one control
    button that is rendered (Start Training when not training, Stop
    Training when training), or an event on a training socket. *)
Inductive Action : Type :=
| ClickStart (params : TrainingParams) (fetched : Completion Response)
| ClickStop (fetched : Completion Response)
| SocketEvent (ev : WsEvent).

(** The Start button is rendered when [!isTraining] and the Stop button
    otherwise; a socket event needs a socket that was opened. *)
Definition possible (w : World) (a : Action) : bool :=
  match a with
  | ClickStart _ _ => negb (isTraining (form w))
  | ClickStop _ => isTraining (form w)
  | SocketEvent _ =>
      match sockets w with
      | [] => false
      | _ :: _ => true
      end
  end.

Definition act (JSON_parse : string → Completion JValue) (w : World) (a : Action)
  : World :=
  if possible w a then
    match a with
    | ClickStart params fetched => exec (handleStartTraining params fetched) w
    | ClickStop fetched => exec (on_form (handleStopTraining fetched)) w
    | SocketEvent ev => exec (dispatch JSON_parse ev) w
    end
  else w.

(** The form as [useState] initialises it, with no socket opened and
    nothing written to the console. *)
Definition mounted : World := mkWorld initial [] 0.

(** [toggleLoraModule]: the list handed to [updateParams]. *)
Definition toggleLoraModule (module : string) (current : list string) : list string :=
  if existsb (String.eqb module) current
  then List.filter (fun m => negb (String.eqb m module)) current
  else (current ++ [module])%list.

(** [totalSteps > 0 ? (currentStep / totalSteps) * 100 : 0] for finite
    numbers: the quotient is rounded to a double, and so is its product
    with 100; an infinite quotient stays infinite. *)
Definition progress (currentStep totalSteps : Q) : Double.t :=
  if Qlt_le_dec 0 totalSteps then
    match Double.round (currentStep / totalSteps) with
    | Double.Finite ratio => Double.round (ratio * 100)
    | Double.Infinite negative => Double.Infinite negative
    end
  else Double.Finite 0.

End TrainingForm.

(** ** The progress indicator *)

Module ProgressIndicator.

Definition lower (c : ascii) : ascii :=
  let n := nat_of_ascii c in
  if (65 <=? n)%nat && (n <=? 90)%nat then ascii_of_nat (n + 32) else c.

(** [toLowerCase], on the ASCII letters. *)
Fixpoint toLowerCase (s : string) : string :=
  match s with
  | EmptyString => EmptyString
  | String c rest => String (lower c) (toLowerCase rest)
  end.

(** [s.includes(sub)] *)
Fixpoint includes (s sub : string) : bool :=
  String.prefix sub s ||
  match s with
  | EmptyString => false
  | String _ rest => includes rest sub
  end.

(** The [steps] table: label and threshold. *)
Definition steps : list (string * Q) :=
  [("Initializing", 0%Q); ("Denoising", 10%Q); ("Decoding", 85%Q); ("Finalizing", 95%Q)].

Definition threshold (i : nat) : Q :=
  match steps !! i with
  | Some (_, t) => t
  | None => 0%Q
  end.

(** [for (let i = n - 1; i >= 0; i--) if (progress >= steps[i].threshold) return i;
     return 0] *)
Fixpoint by_threshold (n : nat) (progress : Q) : nat :=
  match n with
  | O => 0%nat
  | S i => if Qle_bool (threshold i) progress then i else by_threshold i progress
  end.

Definition getCurrentStepIndex (currentStep : option string) (progress : Q) : nat :=
  let stepText := toLowerCase (default "" currentStep) in
  if includes stepText "saving" || includes stepText "finaliz" || includes stepText "mux"
  then 3%nat
  else if includes stepText "decod" || includes stepText "streaming frames"
  then 2%nat
  else if includes stepText "denois" || includes stepText "stage 1"
          || includes stepText "stage 2"
  then 1%nat
  else if includes stepText "load" || includes stepText "encod"
  then 0%nat
  else by_threshold (length steps) progress.

(** The keyword table read off the four tests above: each marker with the
    step it stands for. *)
Definition markers : list (string * nat) :=
  [("saving", 3%nat); ("finaliz", 3%nat); ("mux", 3%nat);
   ("decod", 2%nat); ("streaming frames", 2%nat);
   ("denois", 1%nat); ("stage 1", 1%nat); ("stage 2", 1%nat);
   ("load", 0%nat); ("encod", 0%nat)].

(** The steps whose markers occur in a line. *)
Definition phases_present (line : string) : list nat :=
  map snd (List.filter (fun m => includes (toLowerCase line) (fst m)) markers).

(** [Math.min(100, Math.max(0, downloadProgress || 0))]; [None] is an
    absent [downloadProgress]. *)
Definition downloadValue (downloadProgress : option Q) : Q :=
  let given := match downloadProgress with
               | Some p => if Qeq_bool p 0 then 0%Q else p
               | None => 0%Q
               end in
  Qmin 100 (Qmax 0 given).

(** [(status === "pending" || status === "processing") &&
     (downloadProgress !== undefined || downloadStep)] as a condition. *)
Definition showDownload (status : VideoGenerator.Status.t)
    (downloadProgress : option Q) (downloadStep : option string) : bool :=
  match status with
  | VideoGenerator.Status.pending | VideoGenerator.Status.processing =>
      match downloadProgress with
      | Some _ => true
      | None =>
          match downloadStep with
          | Some text => negb (String.eqb text "")
          | None => false
          end
      end
  | _ => false
  end.

End ProgressIndicator.

(** ** The frames controls of the parameter panel *)

Module ParameterPanel.

(** [Math.round]: the nearest integer, a tie going up. *)
Definition Math_round (x : Q) : Z := Qfloor (x + (1 # 2))%Q.

(** [1 + Math.round((v - 1) / 8) * 8] *)
Definition snap_frames (v : Q) : Z :=
  1 + Math_round ((v - 1) / 8)%Q * 8.

(** The bounds handed to the frames slider, which reports positions within
    them. *)
Definition slider_min : Q := 9%Q.
Definition slider_max : Q := 4097%Q.

(** [onValueChange] of the frames slider: the [num_frames] it stores. *)
Definition frames_onValueChange (v : Q) : Z := snap_frames v.

(** [onChange] of the numeric input: [parsed] is the result of
    [parseInt(e.target.value, 10)], [None] for NaN; the result is the
    [num_frames] stored, [None] when nothing is stored. The arithmetic is
    that of the integers: doubles agree with it up to 2^53 in magnitude, and
    beyond that (as for the Infinity that [parseInt] gives for an overlong
    digit string) the clamp stores the same bound, 9 or 4097. *)
Definition frames_onChange (parsed : option Z) : option Z :=
  match parsed with
  | None => None
  | Some v =>
      let adjusted := snap_frames (inject_Z v) in
      Some (Z.max 9 (Z.min 4097 adjusted))
  end.

(** [num_frames = 1 + 8 k] for some [k >= 1], within [[9, 4097]]. *)
Definition valid_frames (n : Z) : Prop :=
  (∃ k : Z, 1 ≤ k ∧ n = 1 + 8 * k) ∧ 9 ≤ n ≤ 4097.

(** [Math.round(v / 32) * 32], stored by the width and the height slider. *)
Definition snap_resolution (v : Q) : Z := Math_round (v / 32)%Q * 32.

(** The bounds handed to the width and the height slider. *)
Definition resolution_min : Q := 256%Q.
Definition resolution_max : Q := 4096%Q.

(** The frame presets offered as buttons. *)
Definition framePresets : list Z := [17; 33; 65; 241; 721; 1441; 2881; 4097].

(** [Math.floor(Math.random() * 2147483647)]; [random] is the double drawn,
    at least 0 and below 1. The product is rounded to a double before the
    floor is taken. *)
Definition generateRandomSeed (random : Q) : Z :=
  Qfloor (Double.fl (random * 2147483647)).

(** [s.split(" ")]: the pieces between single spaces, empty ones included;
    [acc] holds the piece being read. *)
Fixpoint split_from (acc : string) (s : string) : list string :=
  match s with
  | EmptyString => [acc]
  | String c rest =>
      if Ascii.eqb c " "%char then acc :: split_from EmptyString rest
      else split_from (acc +:+ String c EmptyString) rest
  end.

Definition split (s : string) : list string := split_from EmptyString s.

(** [pieces.join(" ")] *)
Fixpoint join (pieces : list string) : string :=
  match pieces with
  | [] => EmptyString
  | [piece] => piece
  | piece :: rest => piece +:+ String " "%char (join rest)
  end.

(** The extra arguments field: what is shown for the stored list, and what
    is stored for the text typed ([split(" ").filter(Boolean)]). *)
Definition extra_args_value (extra_args : option (list string)) : string :=
  join (default [] extra_args).

Definition extra_args_onChange (text : string) : list string :=
  List.filter (fun piece => negb (String.eqb piece EmptyString)) (split text).

(** A usable argument: not empty and holding no space. *)
Fixpoint spaceless (s : string) : bool :=
  match s with
  | EmptyString => true
  | String c rest => negb (Ascii.eqb c " "%char) && spaceless rest
  end.

Definition is_argument (s : string) : bool :=
  negb (String.eqb s EmptyString) && spaceless s.

End ParameterPanel.

(** ** What an observer of the generation form sees *)

Module Display.

(** The two props the form hands to the progress indicator. *)
Definition progress (s : VideoGenerator.State) : Q :=
  match VideoGenerator.progress s with
  | JNum q => q
  | _ => 0%Q
  end.

Definition currentStep (s : VideoGenerator.State) : option string :=
  match VideoGenerator.currentStep s with
  | JStr text => Some text
  | _ => None
  end.

Definition step (s : VideoGenerator.State) : nat :=
  ProgressIndicator.getCurrentStepIndex (currentStep s) (progress s).

(** The claim that the progress shown never goes down within a step: of two
    progress events handled one after the other that leave the same step
    shown, the second does not show less than the first. *)
Definition never_decreases_within_step : Prop :=
  ∀ (job : JValue) (params : GenerationParams.t) (u1 u2 : JValue)
    (s : VideoGenerator.State),
    get u1 "type" = Normal (JStr "progress") →
    get u2 "type" = Normal (JStr "progress") →
    let s1 := exec (VideoGenerator.onMessage job params u1) s in
    let s2 := exec (VideoGenerator.onMessage job params u2) s1 in
    step s1 = step s2 →
    (progress s1 <= progress s2)%Q.

(** The form shows an outcome: a final status, or the lost connection. *)
Definition settled (s : VideoGenerator.State) : Prop :=
  VideoGenerator.status s = VideoGenerator.Status.completed
  ∨ VideoGenerator.status s = VideoGenerator.Status.error
  ∨ VideoGenerator.error s = Value (JStr "Connection lost").

(** The ways the stream of a job can end for the form: a terminal event
    (complete or error), a transport error, a plain close. *)
Definition ending (JSON_parse : string → Completion JValue) (ev : WsEvent) : Prop :=
  match ev with
  | WsMessage data =>
      ∃ update, JSON_parse data = Normal update
                ∧ (get update "type" = Normal (JStr "complete")
                   ∨ get update "type" = Normal (JStr "error"))
  | WsError | WsClose => True
  end.

(** The claim that every ending of the stream is reflected: for a form
    watching a job, whichever way the stream ends, the form then shows an
    outcome. *)
Definition every_ending_is_reflected : Prop :=
  ∀ (JSON_parse : string → Completion JValue) (job : JValue)
    (params : GenerationParams.t) (ev : WsEvent) (s : VideoGenerator.State),
    VideoGenerator.isGenerating s = true →
    ending JSON_parse ev →
    settled (exec (VideoGenerator.dispatch JSON_parse job params ev) s).

End Display.

(** ** The server side: job controller, registry and broadcaster

    The server is not among the sources of the client; what the properties
    below need of it is written down from the specification. *)

Module Backend.

(** Modelled from the spec: the [status] enumeration of a Job (section 3);
    the server code holding it is missing. *)
Inductive Status : Type := pending | running | completed | error | stopped.

(** Modelled from the spec: the terminal states of section 4.4 ([completed],
    [error], [stopped]); the server code is missing. *)
Definition is_terminal (s : Status) : bool :=
  match s with
  | completed | error | stopped => true
  | pending | running => false
  end.

(** Modelled from the spec: what can reach the controller about one job
    (section 4.4): the worker confirmed started, a progress event, the
    worker's exit (code 0 with or without an artifact reference, or
    non-zero), a parsed error line, a failed launch, a cancellation
    request. The server code is missing. *)
Inductive Signal : Type :=
| WorkerStarted
| ProgressEvent
| ExitZero (artifact : bool)
| ExitNonZero
| ErrorLine
| LaunchFailure
| CancelRequest.

(** Modelled from the spec: the controller's state machine of section 4.4;
    the server code is missing. A signal that the section gives no
    transition for leaves the status as it is. *)
Definition transition (s : Status) (sig : Signal) : Status :=
  match s, sig with
  | pending, (WorkerStarted | ProgressEvent) => running
  | pending, LaunchFailure => error
  | pending, CancelRequest => stopped
  | running, ExitZero true => completed
  | running, ExitZero false => error
  | running, (ExitNonZero | ErrorLine | LaunchFailure) => error
  | running, CancelRequest => stopped
  | _, _ => s
  end.

(** Modelled from the spec: the controller handling the signals of one job
    one after the other; the server code is missing. *)
Definition run (s : Status) (sigs : list Signal) : Status := foldl transition s sigs.

(** Modelled from the spec: the five values of the enumeration, listed; the
    server code is missing. *)
Definition statuses : list Status := [pending; running; completed; error; stopped].

(** The status values of the two job interfaces of the API module, read as
    statuses of the specification: [processing] and [training] are its
    [running]. *)
Definition of_generation (s : GenerationJob.status) : Status :=
  match s with
  | GenerationJob.pending => pending
  | GenerationJob.processing => running
  | GenerationJob.completed => completed
  | GenerationJob.error => error
  end.

Definition of_training (s : TrainingJob.status) : Status :=
  match s with
  | TrainingJob.pending => pending
  | TrainingJob.training => running
  | TrainingJob.completed => completed
  | TrainingJob.error => error
  | TrainingJob.stopped => stopped
  end.

(** Modelled from the spec: the phases of section 3; the server code is
    missing. *)
Inductive Phase : Type := initializing | downloading | computing | decoding | finalizing.

(** Modelled from the spec: the ProgressSnapshot of section 3, without its
    secondary axis; the server code is missing. *)
Record ProgressSnapshot : Type := mkSnapshot {
  phase : Phase;
  fraction : Q;
  label : string
}.

(** Modelled from the spec: the Job record of section 3, without its
    request and timestamps; the server code is missing. *)
Record Job : Type := mkJob {
  status : Status;
  progress : ProgressSnapshot;
  output : option string;
  failure : option string
}.

(** Modelled from the spec: the messages of a job's topic (sections 4.3 and
    6): the synthesized current state built from the registry record, a
    live progress event, the terminal event. The server code is missing. *)
Inductive Event : Type :=
| CurrentState (job : Job)
| Live (snapshot : ProgressSnapshot)
| Terminal (job : Job).

(** Modelled from the spec: the broadcaster's topics (section 4.3): per job
    id, for each subscriber in order of arrival, the messages delivered to
    it so far, oldest first. The server code is missing. *)
Abbreviation Topics := (gmap string (list (list Event))).
(** Modelled from the spec: the job registry, the latest record per job id;
    the server code is missing. *)
Abbreviation Registry := (gmap string Job).





(** Modelled from the spec: the three outcomes of a subscription (sections
    4.3 and 7): unknown job, a stream that ends at once, a live attachment
    as the subscriber of that index; the server code is missing. *)
Inductive Subscription : Type :=
| NotFound
| Ended (stream : list Event)
| Attached (subscriber : nat) (topics : Topics).

(** Modelled from the spec: [subscribe] of section 4.3. An unknown job id is
    NotFound; a terminal job gets the one synthetic terminal event and the
    stream ends; otherwise the subscriber is handed the current state built
    from the registry record and only then joins the topic. The server code
    is missing. *)
Definition subscribe (registry : Registry) (jobId : string) (topics : Topics)
  : Subscription :=
  match registry !! jobId with
  | None => NotFound
  | Some job =>
      if is_terminal (status job) then Ended [Terminal job]
      else
        let subscribers : list (list Event) := default [] (topics !! jobId) in
        Attached (length subscribers)
                 (<[jobId := (subscribers ++ [[CurrentState job]])%list]> topics)
  end.

(** Modelled from the spec: [publish] of section 4.3: every subscriber of
    the topic receives the event, in publish order. The server code is
    missing. *)
Definition publish (jobId : string) (ev : Event) (topics : Topics) : Topics :=
  alter (fmap (fun delivered : list Event => (delivered ++ [ev])%list)) jobId topics.

(** Modelled from the spec: a run of publications, to any topics, in
    publish order; the server code is missing. *)
Definition publish_all (published : list (string * Event)) (topics : Topics) : Topics :=
  foldl (fun t p => publish (fst p) (snd p) t) topics published.

(** Modelled from the spec: what one subscriber of a topic has been sent;
    the server code is missing. *)
Definition delivered (topics : Topics) (jobId : string) (subscriber : nat)
  : option (list Event) :=
  topics !! jobId ≫= fun subscribers => subscribers !! subscriber.

(** Modelled from the spec: the events of [published] that went to the
    topic of [jobId], in order; the server code is missing. *)
Definition published_to (jobId : string) (published : list (string * Event))
  : list Event :=
  map snd (List.filter (fun p => String.eqb (fst p) jobId) published).

End Backend.

(** ** The gallery *)

Module GalleryVideo.
(** The fields of a gallery entry that the handlers below read, with its
    file name and prompt. *)
Record t : Type := mk {
  id : string;
  filename : string;
  path : string;
  prompt : option string;
  created_at : string
}.
End GalleryVideo.

Module GalleryGrid.

(** The hooks touched by deleting and by moving through the entries, and
    the messages shown with [alert]. *)
Record State : Type := mkState {
  videos : list GalleryVideo.t;
  selectedVideo : option GalleryVideo.t;
  deleting : option string;
  alerts : list ErrorValue
}.

Definition setVideos (f : list GalleryVideo.t → list GalleryVideo.t) : Eff State unit :=
  modify (fun s => mkState (f (videos s)) (selectedVideo s) (deleting s) (alerts s)).
Definition setSelectedVideo (v : option GalleryVideo.t) : Eff State unit :=
  modify (fun s => mkState (videos s) v (deleting s) (alerts s)).
Definition setDeleting (v : option string) : Eff State unit :=
  modify (fun s => mkState (videos s) (selectedVideo s) v (alerts s)).
Definition alert (v : ErrorValue) : Eff State unit :=
  modify (fun s => mkState (videos s) (selectedVideo s) (deleting s) (alerts s ++ [v])).

(** [selectedVideo?.id === video.id], on the hook's value when the handler
    was made. *)
Definition is_selected (selected : option GalleryVideo.t) (video : GalleryVideo.t) : bool :=
  match selected with
  | Some v => String.eqb (GalleryVideo.id v) (GalleryVideo.id video)
  | None => false
  end.

(** [handleDelete]; [confirmed] is the answer to [confirm], [fetched] the
    outcome of the DELETE made by [deleteVideo]. *)
Definition handleDelete (confirmed : bool) (fetched : Completion Response)
    (video : GalleryVideo.t) : Eff State unit :=
  fun s =>
    if negb confirmed then (s, Normal tt)
    else
      (setDeleting (Some (GalleryVideo.id video));;
       try_catch
         (lift (Api.deleteVideo fetched);;
          setVideos (List.filter (fun v =>
            negb (String.eqb (GalleryVideo.id v) (GalleryVideo.id video))));;
          if is_selected (selectedVideo s) video then setSelectedVideo None
          else mret tt)
         (fun e => alert (MessageOf e));;
       setDeleting None) s.

(** [findIndex((v) => v.id === id)]: the first position, -1 when there is
    none. *)
Fixpoint findIndex (id : string) (l : list GalleryVideo.t) : Z :=
  match l with
  | [] => -1
  | v :: rest =>
      if String.eqb (GalleryVideo.id v) id then 0
      else
        let i := findIndex id rest in
        if i <? 0 then -1 else 1 + i
  end.

(** [a % n] on integers: the sign of the dividend; NaN ([None]) for a zero
    divisor. *)
Definition js_rem (a n : Z) : option Z :=
  if n =? 0 then None else Some (Z.rem a n).

(** [list[i]]: undefined ([None]) for NaN and outside the list. *)
Definition at_index (l : list GalleryVideo.t) (i : option Z) : option GalleryVideo.t :=
  match i with
  | Some z => if z <? 0 then None else l !! Z.to_nat z
  | None => None
  end.

Inductive Direction : Type := prev | next.

(** [navigateVideo]: the new value of the [selectedVideo] hook. *)
Definition navigateVideo (direction : Direction) (filteredVideos : list GalleryVideo.t)
    (selectedVideo : option GalleryVideo.t) : option GalleryVideo.t :=
  match selectedVideo with
  | None => selectedVideo
  | Some selected =>
      let currentIndex := findIndex (GalleryVideo.id selected) filteredVideos in
      let n := Z.of_nat (length filteredVideos) in
      let newIndex :=
        match direction with
        | prev => js_rem (currentIndex - 1 + n) n
        | next => js_rem (currentIndex + 1) n
        end in
      at_index filteredVideos newIndex
  end.

End GalleryGrid.

(** ** The generation form that remembers its parameters and its last job *)

Module StoredGenerator.

(** A JavaScript object as a finite map from keys to values. *)
Abbreviation Obj := (gmap string JValue).

(** [defaultParams], in the order written. *)
Definition defaultParams : list (string * JValue) :=
  [("prompt", JStr ""); ("negative_prompt", JStr "");
   ("height", JNum 512); ("width", JNum 512); ("num_frames", JNum 33);
   ("seed", JNum 42); ("fps", JNum 24); ("pipeline", JStr "distilled");
   ("steps", JNum 40); ("cfg_scale", JNum 4);
   ("model_repo", JStr "AITRADER/ltx2-distilled-4bit-mlx");
   ("auto_output_name", JBool false); ("tiling", JStr "auto");
   ("cache_limit_gb", JNum 32); ("memory_limit_gb", JUndefined);
   ("audio", JBool true); ("stream", JBool true); ("mem_log", JBool false);
   ("clear_cache", JBool false); ("loras", JArr []); ("distilled_loras", JArr [])].

(** [sanitizeParams] over a given defaults object: the allowed keys are the
    keys of the defaults; [{...defaults, ...cleaned}] lets [cleaned] win. *)
Definition sanitize_with (defaults : list (string * JValue)) (raw : Obj) : Obj :=
  let allowed := map fst defaults in
  let cleaned :=
    foldl (fun (cleaned : Obj) key =>
             match raw !! key with
             | Some v => <[key := v]> cleaned
             | None => cleaned
             end) ∅ allowed in
  cleaned ∪ list_to_map defaults.

Definition sanitizeParams (raw : Obj) : Obj := sanitize_with defaultParams raw.

(** [updateParams]: [{...prev, ...updates}]. *)
Definition updateParams (updates prev : Obj) : Obj := updates ∪ prev.

(** Local storage as this form meets it: refused by the browser, every
    access then throwing, or available, holding what is kept under the
    last-job key. *)
Inductive Storage : Type :=
| Refused
| Available (kept : option string).

(** The hooks that resuming touches, local storage, and the progress
    sockets opened (by job id). *)
Record State : Type := mkState {
  status : JValue;
  progress : JValue;
  currentStep : JValue;
  error : JValue;
  videoPath : JValue;
  storage : Storage;
  sockets : list string
}.

(** The job id that can be read back from local storage. *)
Definition lastJob (s : State) : option string :=
  match storage s with
  | Refused => None
  | Available kept => kept
  end.

Definition initial : State :=
  mkState (JStr "idle") (JNum 0) (JStr "") JUndefined JUndefined (Available None) [].

Definition setStatus (v : JValue) : Eff State unit :=
  modify (fun s => mkState v (progress s) (currentStep s) (error s) (videoPath s)
                     (storage s) (sockets s)).
Definition setProgress (v : JValue) : Eff State unit :=
  modify (fun s => mkState (status s) v (currentStep s) (error s) (videoPath s)
                     (storage s) (sockets s)).
Definition setCurrentStep (v : JValue) : Eff State unit :=
  modify (fun s => mkState (status s) (progress s) v (error s) (videoPath s)
                     (storage s) (sockets s)).
Definition setError (v : JValue) : Eff State unit :=
  modify (fun s => mkState (status s) (progress s) (currentStep s) v (videoPath s)
                     (storage s) (sockets s)).
Definition setVideoPath (v : JValue) : Eff State unit :=
  modify (fun s => mkState (status s) (progress s) (currentStep s) (error s) v
                     (storage s) (sockets s)).

(** [localStorage.getItem(LAST_JOB_KEY)] *)
Definition getLastJob : Eff State (option string) :=
  fun s =>
    match storage s with
    | Refused => (s, Throw SecurityError)
    | Available kept => (s, Normal kept)
    end.

(** [localStorage.removeItem(LAST_JOB_KEY)] *)
Definition removeLastJob : Eff State unit :=
  fun s =>
    match storage s with
    | Refused => (s, Throw SecurityError)
    | Available _ =>
        (mkState (status s) (progress s) (currentStep s) (error s) (videoPath s)
           (Available None) (sockets s), Normal tt)
    end.

Definition openSocket (jobId : string) : Eff State unit :=
  modify (fun s => mkState (status s) (progress s) (currentStep s) (error s) (videoPath s)
                     (storage s) (sockets s ++ [jobId])).

(** The message callback installed by [resumeLastJob]. *)
Definition onMessage (update : JValue) : Eff State unit :=
  type ← lift (get update "type");
  if is_str type "progress" then
    setStatus (JStr "processing");;
    p ← lift (get update "progress");
    setProgress (js_or p (JNum 0));;
    step ← lift (get update "current_step");
    setCurrentStep (js_or step (JStr "Processing..."));;
    out ← lift (get update "output_path");
    if truthy out then
      out' ← lift (get update "output_path");
      setVideoPath out'
    else mret tt
  else if is_str type "complete" then
    setStatus (JStr "completed");;
    setProgress (JNum 100);;
    out ← lift (get update "output_path");
    setVideoPath out;;
    removeLastJob
  else if is_str type "error" then
    setStatus (JStr "error");;
    e ← lift (get update "error");
    setError e;;
    removeLastJob
  else mret tt.

(** The socket opened by [resumeLastJob]; what [console.error] writes is
    not kept here. *)
Definition dispatch (JSON_parse : string → Completion JValue) : WsEvent → Eff State unit :=
  Socket.dispatch JSON_parse (mret tt) onMessage
    (setError (JStr "Connection lost")) (mret tt).

(** The body of the [try] of [resumeLastJob]: the status record of
    [lastJob] is asked for and shown, and the progress socket opened for a
    job under way; [fetched] is the outcome of the GET made by
    [getJobStatus]. *)
Definition showJob (lastJob : string) (fetched : Completion Response) : Eff State unit :=
  job ← lift (Api.getJobStatus fetched);
  st ← lift (get job "status");
  setStatus st;;
  p ← lift (get job "progress");
  setProgress (js_or p (JNum 0));;
  step ← lift (get job "current_step");
  setCurrentStep (js_or step (JStr ""));;
  e ← lift (get job "error");
  setError e;;
  out ← lift (get job "output_path");
  (if truthy out then
     out' ← lift (get job "output_path");
     setVideoPath out'
   else mret tt);;
  st1 ← lift (get job "status");
  if is_str st1 "processing" then openSocket lastJob
  else
    st2 ← lift (get job "status");
    if is_str st2 "pending" then openSocket lastJob
    else mret tt.

(** [resumeLastJob]: the read of local storage stands before the [try], and
    the removal in the [catch] is not guarded either. *)
Definition resumeLastJob (fetched : Completion Response) : Eff State unit :=
  stored ← getLastJob;
  match stored with
  | None => mret tt
  | Some lastJob =>
      if String.eqb lastJob "" then mret tt
      else try_catch (showJob lastJob fetched) (fun _ => removeLastJob)
  end.

End StoredGenerator.

(** * Properties *)

#[local] Arguments get : simpl never.
#[local] Arguments blank : simpl never.

(** Unfolds the plumbing of the two monads, leaving the reads and the state
    writes of the handler at hand. *)
Ltac run_eff :=
  unfold exec, try_catch, lift, modify, mbind, mret,
    eff_bind, eff_ret, completion_bind, completion_ret in *;
  cbn.

(** ** Listing and mutating calls *)

Lemma list_of_not_ok key response :
  ok response = false → Api.list_of key (Normal response) = Normal (JArr []).
Proof. intros Hok. unfold Api.list_of. cbn. now rewrite Hok. Qed.

Lemma list_of_lacking key response data found :
  ok response = true →
  json response = Normal data →
  get data key = Normal found →
  truthy found = false →
  Api.list_of key (Normal response) = Normal (JArr []).
Proof.
  intros Hok Hjson Hget Hfalsy. unfold Api.list_of. cbn.
  rewrite Hok, Hjson. cbn. rewrite Hget. cbn.
  unfold js_or. now rewrite Hfalsy.
Qed.

Lemma list_of_found key response data found :
  ok response = true →
  json response = Normal data →
  get data key = Normal found →
  truthy found = true →
  Api.list_of key (Normal response) = Normal found.
Proof.
  intros Hok Hjson Hget Htruthy. unfold Api.list_of. cbn.
  rewrite Hok, Hjson. cbn. rewrite Hget. cbn.
  unfold js_or. now rewrite Htruthy.
Qed.

Lemma list_of_null key response :
  ok response = true →
  json response = Normal JNull →
  Api.list_of key (Normal response) = Throw TypeError.
Proof.
  intros Hok Hjson. unfold Api.list_of. cbn. now rewrite Hok, Hjson.
Qed.



Lemma throw_detail_throws {A} response fallback :
  ∃ e, @Api.throw_detail A response fallback = Throw e.
Proof.
  unfold Api.throw_detail.
  destruct (json response) as [err|e]; cbn; [|eauto].
  destruct (get err "detail") as [d|e]; cbn; eauto.
Qed.


(** C10, as claimed, fails: for an ok response whose body is the JSON null,
    a body that holds no array under any field, listVideos reads a field of
    null and throws instead of returning the empty list. *)
Lemma null_body_makes_listing_throw :
  ¬ Api.lacking_array_gives_empty Api.listVideos "videos".
Proof.
  intros Hclaim.
  assert (Hlack : ∀ items, get JNull "videos" ≠ Normal (JArr items)).
  { intros items Heq. discriminate Heq. }
  specialize (Hclaim (mkResponse true (Normal JNull)) JNull eq_refl eq_refl Hlack).
  discriminate Hclaim.
Qed.

(** C10, amended: on every non-ok response listVideos, listCheckpoints and
    listLoras return the empty list instead of throwing, and so they do on
    an ok response whose body is not null and holds no value (or a falsy
    one) under the expected field; on an ok response whose body is the JSON
    null they throw a TypeError, and a truthy value found under the field,
    array or not, is returned as it is. deleteVideo throws on every non-ok
    response. *)
Theorem listing_returns_empty_on_failure (response : Response) :
  (ok response = false →
     Api.listVideos (Normal response) = Normal (JArr [])
     ∧ Api.listCheckpoints (Normal response) = Normal (JArr [])
     ∧ Api.listLoras (Normal response) = Normal (JArr [])
     ∧ ∃ e, Api.deleteVideo (Normal response) = Throw e)
  ∧ (∀ data : JValue,
       ok response = true →
       json response = Normal data →
       (∀ found, get data "videos" = Normal found → truthy found = false →
          Api.listVideos (Normal response) = Normal (JArr []))
       ∧ (∀ found, get data "checkpoints" = Normal found → truthy found = false →
          Api.listCheckpoints (Normal response) = Normal (JArr []))
       ∧ (∀ found, get data "loras" = Normal found → truthy found = false →
          Api.listLoras (Normal response) = Normal (JArr [])))
  ∧ (∀ (lister : Completion Response → Completion JValue) (key : string),
       In (lister, key)
          [(Api.listVideos, "videos"); (Api.listCheckpoints, "checkpoints");
           (Api.listLoras, "loras")] →
       ok response = true →
       (json response = Normal JNull → lister (Normal response) = Throw TypeError)
       ∧ (∀ data found,
            json response = Normal data →
            get data key = Normal found → truthy found = true →
            lister (Normal response) = Normal found)).
Proof.
  split; [|split].
  - intros Hok. repeat split; try now apply list_of_not_ok.
    unfold Api.deleteVideo. run_eff. rewrite Hok. cbn. apply throw_detail_throws.
  - intros data Hok Hjson.
    repeat split; intros found Hget Hfalsy;
      eapply list_of_lacking; eauto.
  - intros lister key Hin Hok.
    assert (Hshape : lister = Api.list_of key).
    { destruct Hin as [H|[H|[H|[]]]]; now inversion H. }
    subst lister. split.
    + intros Hjson. now apply list_of_null.
    + intros data found Hjson Hget Htruthy. eapply list_of_found; eauto.
Qed.

Lemma listing_returns_empty_on_failure_witness :
  Api.listVideos (Normal (mkResponse false (Throw SyntaxError))) = Normal (JArr [])
  ∧ Api.listLoras (Normal (mkResponse true (Normal (JObj [("count", JNum 0)]))))
    = Normal (JArr [])
  ∧ Api.listCheckpoints
      (Normal (mkResponse true (Normal (JObj [("checkpoints", JStr "none")]))))
    = Normal (JStr "none").
Proof.
  split; [|split].
  - apply (proj1 (listing_returns_empty_on_failure
                    (mkResponse false (Throw SyntaxError)))).
    reflexivity.
  - apply (proj1 (proj2 (listing_returns_empty_on_failure
                    (mkResponse true (Normal (JObj [("count", JNum 0)])))))
                 (JObj [("count", JNum 0)]) eq_refl eq_refl) with (found := JUndefined);
      reflexivity.
  - apply (proj2 (proj2 (proj2 (listing_returns_empty_on_failure
                    (mkResponse true (Normal (JObj [("checkpoints", JStr "none")])))))
                   Api.listCheckpoints "checkpoints"
                   (or_intror (or_introl eq_refl)) eq_refl)
                 (JObj [("checkpoints", JStr "none")]) (JStr "none"));
      reflexivity.
Defined.

(** ** Submitting a generation job *)






(** ** Frame counts *)

Lemma Math_round_between (x : Q) (lo hi : Z) :
  (inject_Z lo + (1 # 2) <= x + (1 # 2))%Q →
  (x + (1 # 2) <= inject_Z hi + (1 # 2))%Q →
  lo ≤ ParameterPanel.Math_round x ≤ hi.
Proof.
  intros Hlo Hhi. unfold ParameterPanel.Math_round.
  apply Qfloor_resp_le in Hlo. apply Qfloor_resp_le in Hhi.
  assert (Hfl : ∀ z : Z, Qfloor (inject_Z z + (1 # 2)) = z).
  { intros z. unfold Qfloor, Qplus, inject_Z. cbn.
    replace (z * 2 + 1 * 1) with (1 + z * 2) by lia.
    rewrite Z.div_add by lia. reflexivity. }
  rewrite Hfl in Hlo, Hhi. lia.
Qed.

Lemma snap_frames_in_range (v : Q) :
  (9 <= v)%Q → (v <= 4097)%Q →
  ∃ k, 1 ≤ k ≤ 512 ∧ ParameterPanel.snap_frames v = 1 + 8 * k.
Proof.
  intros Hlo Hhi. unfold ParameterPanel.snap_frames.
  exists (ParameterPanel.Math_round ((v - 1) / 8)). split; [|lia].
  apply Math_round_between.
  - apply Qplus_le_l. apply Qle_shift_div_l; [reflexivity|].
    apply (Qplus_le_l _ _ 1). ring_simplify. exact Hlo.
  - apply Qplus_le_l. apply Qle_shift_div_r; [reflexivity|].
    apply (Qplus_le_l _ _ 1). ring_simplify. exact Hhi.
Qed.

(** C9: every frame count stored through the frames slider (whose positions
    lie between its bounds 9 and 4097) or through the numeric input (whose
    text parsed to a number) is 1 + 8 k for some k >= 1 and lies within
    9 and 4097. *)
Theorem frames_controls_store_valid_counts :
  (∀ v : Q,
     (ParameterPanel.slider_min <= v)%Q → (v <= ParameterPanel.slider_max)%Q →
     ParameterPanel.valid_frames (ParameterPanel.frames_onValueChange v))
  ∧ (∀ (parsed : option Z) (n : Z),
       ParameterPanel.frames_onChange parsed = Some n →
       ParameterPanel.valid_frames n).
Proof.
  split.
  - intros v Hlo Hhi.
    destruct (snap_frames_in_range v Hlo Hhi) as (k & Hk & Heq).
    unfold ParameterPanel.valid_frames, ParameterPanel.frames_onValueChange.
    rewrite Heq. split; [exists k|]; lia.
  - intros [v|] n Heq; [|discriminate].
    unfold ParameterPanel.frames_onChange in Heq. injection Heq as <-.
    unfold ParameterPanel.valid_frames, ParameterPanel.snap_frames.
    set (r := ParameterPanel.Math_round _).
    destruct (Z_lt_le_dec r 1) as [Hsmall|Hge].
    + split; [exists 1|]; lia.
    + destruct (Z_lt_le_dec 512 r) as [Hbig|Hle].
      * split; [exists 512|]; lia.
      * split; [exists r|]; lia.
Qed.

Lemma frames_controls_store_valid_counts_witness :
  ParameterPanel.valid_frames (ParameterPanel.frames_onValueChange 4093)
  ∧ ParameterPanel.valid_frames 17.
Proof.
  split.
  - apply (proj1 frames_controls_store_valid_counts 4093%Q); discriminate.
  - apply (proj2 frames_controls_store_valid_counts (Some 14) 17). reflexivity.
Defined.

(** ** The step shown for a status line *)

(** C4: when a status line contains markers, the step shown is the most
    advanced of the steps whose markers occur in it, wherever in the line
    they stand: of two markers of different steps the one of the later step
    decides, and no marker present can pull the result below its own
    step. *)
Theorem most_advanced_marker_decides (line : string) (progress : Q) :
  let shown := ProgressIndicator.getCurrentStepIndex (Some line) progress in
  (ProgressIndicator.phases_present line ≠ [] →
     shown = max_list (ProgressIndicator.phases_present line))
  ∧ (∀ kw p,
       In (kw, p) ProgressIndicator.markers →
       ProgressIndicator.includes (ProgressIndicator.toLowerCase line) kw = true →
       (p ≤ shown)%nat)
  ∧ (∀ kw1 p1 kw2 p2,
       In (kw1, p1) ProgressIndicator.markers →
       In (kw2, p2) ProgressIndicator.markers →
       ProgressIndicator.includes (ProgressIndicator.toLowerCase line) kw1 = true →
       ProgressIndicator.includes (ProgressIndicator.toLowerCase line) kw2 = true →
       (p1 < p2)%nat →
       (p2 ≤ shown)%nat ∧ shown ≠ p1).
Proof.
  assert (Hmax :
    ProgressIndicator.phases_present line ≠ [] →
    ProgressIndicator.getCurrentStepIndex (Some line) progress
    = max_list (ProgressIndicator.phases_present line)).
  { unfold ProgressIndicator.getCurrentStepIndex, ProgressIndicator.phases_present,
      ProgressIndicator.markers.
    change (default "" (Some line)) with line.
    generalize (ProgressIndicator.toLowerCase line) as text. intros text.
    cbn [List.filter map fst snd].
    destruct (ProgressIndicator.includes text "saving");
      destruct (ProgressIndicator.includes text "finaliz");
      destruct (ProgressIndicator.includes text "mux");
      destruct (ProgressIndicator.includes text "decod");
      destruct (ProgressIndicator.includes text "streaming frames");
      destruct (ProgressIndicator.includes text "denois");
      destruct (ProgressIndicator.includes text "stage 1");
      destruct (ProgressIndicator.includes text "stage 2");
      destruct (ProgressIndicator.includes text "load");
      destruct (ProgressIndicator.includes text "encod");
      cbn [orb map snd max_list]; intros Hne;
      solve [reflexivity | now destruct Hne]. }
  assert (Hge : ∀ kw p,
    In (kw, p) ProgressIndicator.markers →
    ProgressIndicator.includes (ProgressIndicator.toLowerCase line) kw = true →
    (p ≤ ProgressIndicator.getCurrentStepIndex (Some line) progress)%nat).
  { intros kw p Hin Hinc.
    assert (Hp : In p (ProgressIndicator.phases_present line)).
    { unfold ProgressIndicator.phases_present.
      apply (in_map snd _ (kw, p)). apply filter_In. now split. }
    rewrite Hmax by (intros Hnil; now rewrite Hnil in Hp).
    apply max_list_elem_of_le. now apply list_elem_of_In. }
  cbv zeta. split; [exact Hmax|]. split; [exact Hge|].
  intros kw1 p1 kw2 p2 Hin1 Hin2 Hinc1 Hinc2 Hlt.
  specialize (Hge kw2 p2 Hin2 Hinc2). lia.
Qed.

Lemma most_advanced_marker_decides_witness :
  ProgressIndicator.getCurrentStepIndex (Some "Decoding latents (denoising done)") 12
  = max_list (ProgressIndicator.phases_present "Decoding latents (denoising done)")
  ∧ (2 ≤ ProgressIndicator.getCurrentStepIndex
           (Some "Decoding latents (denoising done)") 12)%nat.
Proof.
  split.
  - apply (proj1 (most_advanced_marker_decides
                    "Decoding latents (denoising done)" 12)).
    vm_compute. discriminate.
  - apply (proj2 (proj2 (most_advanced_marker_decides
                           "Decoding latents (denoising done)" 12))
                 "denois" 1%nat "decod" 2%nat);
      vm_compute; auto 12.
Defined.

(** ** Streamed messages *)

(** C7: handling a streamed message never throws, whatever the text: the
    socket's message handler always returns; text that does not parse, a
    parsed value without a readable type and an unhandled type leave every
    state hook and the set of open sockets as they were. *)
Theorem streamed_message_never_throws
    (JSON_parse : string → Completion JValue) (job : JValue)
    (params : GenerationParams.t) (data : string) (s : VideoGenerator.State) :
  let r := Socket.onmessage JSON_parse VideoGenerator.console_error
             (VideoGenerator.onMessage job params) data s in
  r.2 = Normal tt
  ∧ (VideoGenerator.unrecognized JSON_parse data = true →
       VideoGenerator.hooks r.1 = VideoGenerator.hooks s
       ∧ VideoGenerator.sockets r.1 = VideoGenerator.sockets s).
Proof.
  unfold Socket.onmessage, VideoGenerator.unrecognized. cbv zeta. run_eff.
  destruct (JSON_parse data) as [update|e]; cbn; [|now auto].
  unfold VideoGenerator.onMessage. run_eff.
  destruct (get update "type") as [type|e]; cbn; [|now auto].
  destruct (is_str type "progress"); cbn.
  { split; [|discriminate].
    destruct (get update "progress"); cbn; [|reflexivity].
    destruct (get update "current_step"); reflexivity. }
  destruct (is_str type "complete"); cbn.
  { split; [|discriminate].
    destruct (get update "output_path"); cbn; [|reflexivity].
    destruct (get job "job_id"); reflexivity. }
  destruct (is_str type "error"); cbn.
  { split; [|discriminate]. destruct (get update "error"); reflexivity. }
  now auto.
Qed.

Lemma streamed_message_never_throws_witness :
  VideoGenerator.hooks
    (Socket.onmessage (fun _ => Throw SyntaxError) VideoGenerator.console_error
       (VideoGenerator.onMessage (JObj [("job_id", JStr "job-1")])
          (GenerationParams.mk "a red kite" 512 512 33 42 24 GenerationParams.distilled))
       "Traceback (most recent call last):" VideoGenerator.initial).1
  = VideoGenerator.hooks VideoGenerator.initial.
Proof.
  apply (proj2 (streamed_message_never_throws (fun _ => Throw SyntaxError)
                  (JObj [("job_id", JStr "job-1")])
                  (GenerationParams.mk "a red kite" 512 512 33 42 24
                     GenerationParams.distilled)
                  "Traceback (most recent call last):" VideoGenerator.initial)).
  reflexivity.
Defined.

(** ** Progress shown by the generation form *)

Lemma onMessage_progress job params update s :
  get update "type" = Normal (JStr "progress") →
  ∃ p step,
    get update "progress" = Normal p
    ∧ get update "current_step" = Normal step
    ∧ VideoGenerator.onMessage job params update s
      = (VideoGenerator.mkState VideoGenerator.Status.processing
           (js_or p (JNum 0)) (js_or step (JStr "Processing..."))
           (VideoGenerator.error s) (VideoGenerator.videoPath s)
           (VideoGenerator.history s) (VideoGenerator.sockets s)
           (VideoGenerator.console s), Normal tt).
Proof.
  intros Htype. unfold VideoGenerator.onMessage. run_eff. rewrite Htype. cbn.
  destruct update; try discriminate; unfold get in *; eauto.
Qed.

Lemma onMessage_complete job params update s :
  get update "type" = Normal (JStr "complete") →
  VideoGenerator.status (exec (VideoGenerator.onMessage job params update) s)
  = VideoGenerator.Status.completed
  ∧ VideoGenerator.progress (exec (VideoGenerator.onMessage job params update) s)
    = JNum 100.
Proof.
  intros Htype. unfold VideoGenerator.onMessage. run_eff. rewrite Htype. cbn.
  destruct (get update "output_path"); cbn; [|now split].
  destruct (get job "job_id"); now split.
Qed.

(** C1, as claimed, fails: two progress events with the same step text
    "Denoising", carrying 50 and then 30, leave the form showing 30 after
    50 within one step. *)
Lemma progress_decreases_within_step : ¬ Display.never_decreases_within_step.
Proof.
  intros Hclaim.
  pose (u50 := JObj [("type", JStr "progress"); ("progress", JNum 50);
                     ("current_step", JStr "Denoising")]).
  pose (u30 := JObj [("type", JStr "progress"); ("progress", JNum 30);
                     ("current_step", JStr "Denoising")]).
  specialize (Hclaim (JObj [("job_id", JStr "job-1")])
                (GenerationParams.mk "a red kite" 512 512 33 42 24
                   GenerationParams.distilled)
                u50 u30 VideoGenerator.initial eq_refl eq_refl eq_refl).
  vm_compute in Hclaim. now apply Hclaim.
Qed.

(** C1, amended: after a progress event the form shows the progress value
    that event carries (0 when it is missing or falsy), whatever it showed
    before, and its status is processing; a complete event sets status
    completed together with progress 100. *)
Theorem progress_shown_follows_events
    (job : JValue) (params : GenerationParams.t) (update : JValue)
    (s : VideoGenerator.State) :
  let s' := exec (VideoGenerator.onMessage job params update) s in
  (get update "type" = Normal (JStr "progress") →
     ∃ p, get update "progress" = Normal p
          ∧ VideoGenerator.progress s' = js_or p (JNum 0)
          ∧ VideoGenerator.status s' = VideoGenerator.Status.processing)
  ∧ (get update "type" = Normal (JStr "complete") →
     VideoGenerator.status s' = VideoGenerator.Status.completed
     ∧ VideoGenerator.progress s' = JNum 100).
Proof.
  cbv zeta. split.
  - intros Htype.
    destruct (onMessage_progress job params update s Htype) as (p & step & Hp & _ & Heq).
    exists p. unfold exec. rewrite Heq. now repeat split.
  - apply onMessage_complete.
Qed.

Lemma progress_shown_follows_events_witness :
  VideoGenerator.status
    (exec (VideoGenerator.onMessage (JObj [("job_id", JStr "job-1")])
             (GenerationParams.mk "a red kite" 512 512 33 42 24
                GenerationParams.distilled)
             (JObj [("type", JStr "complete"); ("output_path", JStr "out.mp4")]))
          VideoGenerator.initial)
  = VideoGenerator.Status.completed
  ∧ VideoGenerator.progress
      (exec (VideoGenerator.onMessage (JObj [("job_id", JStr "job-1")])
               (GenerationParams.mk "a red kite" 512 512 33 42 24
                  GenerationParams.distilled)
               (JObj [("type", JStr "complete"); ("output_path", JStr "out.mp4")]))
            VideoGenerator.initial)
    = JNum 100.
Proof.
  apply (proj2 (progress_shown_follows_events (JObj [("job_id", JStr "job-1")])
                  (GenerationParams.mk "a red kite" 512 512 33 42 24
                     GenerationParams.distilled)
                  (JObj [("type", JStr "complete"); ("output_path", JStr "out.mp4")])
                  VideoGenerator.initial)).
  reflexivity.
Defined.

(** ** How the stream can end *)

Lemma dispatch_message JSON_parse job params data update s :
  JSON_parse data = Normal update →
  exec (VideoGenerator.dispatch JSON_parse job params (WsMessage data)) s
  = exec (try_catch (VideoGenerator.onMessage job params update)
            (fun _ => VideoGenerator.console_error)) s.
Proof.
  intros Hparse. unfold VideoGenerator.dispatch, Socket.dispatch, Socket.onmessage.
  run_eff. now rewrite Hparse.
Qed.

(** C6, as claimed, fails: a form in status pending whose socket closes
    without a terminal event and without a transport error stays pending
    with no error text. *)
Lemma plain_close_leaves_form_waiting : ¬ Display.every_ending_is_reflected.
Proof.
  intros Hclaim.
  pose (params := GenerationParams.mk "a red kite" 512 512 33 42 24
                    GenerationParams.distilled).
  pose (job := JObj [("job_id", JStr "job-1"); ("status", JStr "pending")]).
  pose (s := exec (VideoGenerator.handleGenerate params
                     (Normal (mkResponse true (Normal job))))
                  VideoGenerator.initial).
  specialize (Hclaim (fun _ => Throw SyntaxError) job params WsClose s eq_refl I).
  vm_compute in Hclaim.
  destruct Hclaim as [H|[H|H]]; discriminate H.
Qed.

(** C6, amended: a complete event leaves the form in status completed and
    an error event in status error; a transport error stores the text
    "Connection lost" and leaves the status as it was; a plain close leaves
    the whole state as it was. *)
Theorem stream_endings
    (JSON_parse : string → Completion JValue) (job : JValue)
    (params : GenerationParams.t) (s : VideoGenerator.State) :
  (∀ data update,
     JSON_parse data = Normal update →
     get update "type" = Normal (JStr "complete") →
     VideoGenerator.status
       (exec (VideoGenerator.dispatch JSON_parse job params (WsMessage data)) s)
     = VideoGenerator.Status.completed)
  ∧ (∀ data update,
     JSON_parse data = Normal update →
     get update "type" = Normal (JStr "error") →
     VideoGenerator.status
       (exec (VideoGenerator.dispatch JSON_parse job params (WsMessage data)) s)
     = VideoGenerator.Status.error)
  ∧ (let s' := exec (VideoGenerator.dispatch JSON_parse job params WsError) s in
     VideoGenerator.error s' = Value (JStr "Connection lost")
     ∧ VideoGenerator.status s' = VideoGenerator.status s)
  ∧ exec (VideoGenerator.dispatch JSON_parse job params WsClose) s = s.
Proof.
  split; [|split; [|split]].
  - intros data update Hparse Htype.
    rewrite (dispatch_message _ _ _ _ _ _ Hparse).
    unfold VideoGenerator.onMessage. run_eff. rewrite Htype. cbn.
    destruct (get update "output_path"); cbn; [|reflexivity].
    destruct (get job "job_id"); reflexivity.
  - intros data update Hparse Htype.
    rewrite (dispatch_message _ _ _ _ _ _ Hparse).
    unfold VideoGenerator.onMessage. run_eff. rewrite Htype. cbn.
    destruct (get update "error"); reflexivity.
  - now split.
  - reflexivity.
Qed.

Lemma stream_endings_witness :
  VideoGenerator.status
    (exec (VideoGenerator.dispatch
             (fun _ => Normal (JObj [("type", JStr "error");
                                     ("error", JStr "worker exited with code 1")]))
             (JObj [("job_id", JStr "job-1")])
             (GenerationParams.mk "a red kite" 512 512 33 42 24
                GenerationParams.distilled)
             (WsMessage "frame-7"))
          VideoGenerator.initial)
  = VideoGenerator.Status.error.
Proof.
  apply (proj1 (proj2 (stream_endings
                         (fun _ => Normal (JObj [("type", JStr "error");
                                                 ("error", JStr "worker exited with code 1")]))
                         (JObj [("job_id", JStr "job-1")])
                         (GenerationParams.mk "a red kite" 512 512 33 42 24
                            GenerationParams.distilled)
                         VideoGenerator.initial))
               "frame-7" (JObj [("type", JStr "error");
                           ("error", JStr "worker exited with code 1")]));
    reflexivity.
Defined.

(** ** Stopping a training job *)

Lemma handleStopTraining_accepted fetched s :
  TrainingForm.accepted fetched →
  truthy (TrainingForm.jobId s) = true →
  TrainingForm.handleStopTraining fetched s
  = (TrainingForm.mkState TrainingJob.stopped (TrainingForm.currentStep s)
       (TrainingForm.totalSteps s) (TrainingForm.currentLoss s) (TrainingForm.eta s)
       (TrainingForm.error s) (TrainingForm.jobId s), Normal tt).
Proof.
  unfold TrainingForm.accepted, TrainingForm.handleStopTraining.
  intros Hacc Hid. rewrite Hid. run_eff. now rewrite Hacc.
Qed.

Lemma handleStopTraining_no_job fetched s :
  truthy (TrainingForm.jobId s) = false →
  TrainingForm.handleStopTraining fetched s = (s, Normal tt).
Proof.
  unfold TrainingForm.handleStopTraining. intros Hid. now rewrite Hid.
Qed.

Lemma terminal_absorbs (s : Backend.Status) (sigs : list Backend.Signal) :
  Backend.is_terminal s = true → Backend.run s sigs = s.
Proof.
  intros Hterm. unfold Backend.run. induction sigs as [|sig sigs IH]; [reflexivity|].
  cbn. replace (Backend.transition s sig) with s; [exact IH|].
  now destruct s, sig.
Qed.










(** ** Job status *)

(** C3: a job's status is one of pending, running, completed, error and
    stopped (the client's "processing" and "training" being running);
    pending and running are the only non-terminal ones, which is what the
    forms' isTraining and isGenerating test; a terminal status absorbs
    every further signal. *)
Theorem status_five_values_terminal_absorbing :
  (∀ g : GenerationJob.status, In (Backend.of_generation g) Backend.statuses)
  ∧ (∀ t : TrainingJob.status, In (Backend.of_training t) Backend.statuses)
  ∧ (∀ s : Backend.Status, In s Backend.statuses)
  ∧ (∀ s : Backend.Status,
       Backend.is_terminal s = false ↔ s = Backend.pending ∨ s = Backend.running)
  ∧ (∀ s : Backend.Status,
       Backend.is_terminal s = true
       ↔ s = Backend.completed ∨ s = Backend.error ∨ s = Backend.stopped)
  ∧ (∀ s : TrainingForm.State,
       TrainingForm.isTraining s
       = negb (Backend.is_terminal (Backend.of_training (TrainingForm.status s))))
  ∧ (∀ (s : VideoGenerator.State) (g : GenerationJob.status),
       VideoGenerator.status s = VideoGenerator.of_job g →
       VideoGenerator.isGenerating s
       = negb (Backend.is_terminal (Backend.of_generation g)))
  ∧ (∀ (s : Backend.Status) (sigs : list Backend.Signal),
       Backend.is_terminal s = true → Backend.run s sigs = s)
  ∧ (∀ before after : list Backend.Signal,
       Backend.is_terminal (Backend.run Backend.pending before) = true →
       Backend.run Backend.pending (before ++ after)
       = Backend.run Backend.pending before).
Proof.
  repeat split.
  - destruct g; cbn; auto 10.
  - destruct t; cbn; auto 10.
  - destruct s; cbn; auto 10.
  - destruct s; cbn; intros; (discriminate || auto).
  - destruct s; intros [H|H]; (discriminate || reflexivity).
  - destruct s; cbn; intros; (discriminate || auto).
  - destruct s; intros [H|[H|H]]; (discriminate || reflexivity).
  - intros s. unfold TrainingForm.isTraining. now destruct (TrainingForm.status s).
  - intros s g Hs. unfold VideoGenerator.isGenerating. rewrite Hs. now destruct g.
  - apply terminal_absorbs.
  - intros before after Hterm. unfold Backend.run in *. rewrite foldl_app.
    now apply terminal_absorbs.
Qed.

Lemma status_five_values_terminal_absorbing_witness :
  Backend.run Backend.stopped
    [Backend.ExitNonZero; Backend.ProgressEvent; Backend.CancelRequest]
  = Backend.stopped.
Proof.
  apply (proj1 (proj2 (proj2 (proj2 (proj2 (proj2 (proj2 (proj2
           status_five_values_terminal_absorbing)))))))).
  reflexivity.
Defined.

(** ** Subscribing to a job's topic *)

Lemma delivered_publish topics jobId k j ev :
  Backend.delivered (Backend.publish j ev topics) jobId k
  = (fun q : list Backend.Event => if String.eqb j jobId then (q ++ [ev])%list else q)
      <$> Backend.delivered topics jobId k.
Proof.
  unfold Backend.delivered, Backend.publish.
  destruct (String.eqb_spec j jobId) as [->|Hne].
  - rewrite lookup_alter_eq.
    destruct (topics !! jobId) as [subscribers|]; cbn; [|reflexivity].
    now rewrite list_lookup_fmap.
  - rewrite lookup_alter_ne by exact Hne.
    destruct (topics !! jobId) as [subscribers|]; cbn; [|reflexivity].
    destruct (subscribers !! k); reflexivity.
Qed.

Lemma delivered_publish_all published : ∀ topics jobId k q,
  Backend.delivered topics jobId k = Some q →
  Backend.delivered (Backend.publish_all published topics) jobId k
  = Some (q ++ Backend.published_to jobId published)%list.
Proof.
  induction published as [|[j ev] published IH]; intros topics jobId k q Hq.
  - unfold Backend.published_to. cbn. now rewrite app_nil_r.
  - change (Backend.publish_all ((j, ev) :: published) topics)
      with (Backend.publish_all published (Backend.publish j ev topics)).
    rewrite (IH (Backend.publish j ev topics) jobId k
               (if String.eqb j jobId then (q ++ [ev])%list else q))
      by (rewrite delivered_publish, Hq; reflexivity).
    unfold Backend.published_to. cbn.
    destruct (String.eqb j jobId); cbn; [|reflexivity].
    now rewrite <- app_assoc.
Qed.

Lemma delivered_subscribe (topics : Backend.Topics) jobId (first : list Backend.Event) :
  let subscribers : list (list Backend.Event) := default [] (topics !! jobId) in
  Backend.delivered (<[jobId := (subscribers ++ [first])%list]> topics) jobId
    (length subscribers)
  = Some first.
Proof.
  cbv zeta. unfold Backend.delivered. rewrite lookup_insert_eq. cbn.
  now rewrite list_lookup_middle.
Qed.

(** C2: whoever subscribes to a job's topic first receives the current
    state built from the job's registry record at that moment, and after it
    the events published to that topic from then on, in order; for a job
    already terminal the stream is the one terminal event of the record. *)
Theorem first_message_is_current_state
    (registry : Backend.Registry) (jobId : string) (topics : Backend.Topics) :
  match Backend.subscribe registry jobId topics with
  | Backend.NotFound => registry !! jobId = None
  | Backend.Ended stream =>
      ∃ job, registry !! jobId = Some job
             ∧ Backend.is_terminal (Backend.status job) = true
             ∧ stream = [Backend.Terminal job]
  | Backend.Attached subscriber topics' =>
      ∃ job, registry !! jobId = Some job
             ∧ Backend.is_terminal (Backend.status job) = false
             ∧ ∀ published,
                 Backend.delivered (Backend.publish_all published topics')
                   jobId subscriber
                 = Some (Backend.CurrentState job
                           :: Backend.published_to jobId published)
  end.
Proof.
  unfold Backend.subscribe.
  destruct (registry !! jobId) as [job|]; [|reflexivity].
  destruct (Backend.is_terminal (Backend.status job)) eqn:Hterm.
  - now exists job.
  - exists job. split; [reflexivity|]. split; [exact Hterm|]. intros published.
    now rewrite (delivered_publish_all published _ jobId _ [Backend.CurrentState job])
      by apply delivered_subscribe.
Qed.

(** * Further properties of the client *)

(** ** Error bodies of the API calls *)

Lemma throw_detail_unreadable {A} response fallback e :
  json response = Throw e → @Api.throw_detail A response fallback = Throw e.
Proof. intros Hjson. unfold Api.throw_detail. now rewrite Hjson. Qed.

Lemma throw_detail_fallback {A} response fallback err detail :
  json response = Normal err →
  get err "detail" = Normal detail →
  truthy detail = false →
  @Api.throw_detail A response fallback = Throw (Error fallback).
Proof.
  intros Hjson Hget Hfalsy. unfold Api.throw_detail.
  rewrite Hjson. cbn. rewrite Hget. cbn. unfold js_or. now rewrite Hfalsy.
Qed.

(** X1: for the calls that read the error body with a bare
    [response.json()], a non-ok response whose body does not parse throws
    the parse error itself, so their fallback message is only seen when the
    body parses and carries no detail. *)
Theorem unreadable_error_body_hides_fallback (response : Response) :
  ok response = false →
  (∀ e, json response = Throw e →
     Api.startGeneration (Normal response) = Throw e
     ∧ Api.startTraining (Normal response) = Throw e
     ∧ Api.stopTraining (Normal response) = Throw e
     ∧ Api.getTrainingStatus (Normal response) = Throw e
     ∧ Api.uploadImage (Normal response) = Throw e
     ∧ Api.uploadVideo (Normal response) = Throw e
     ∧ Api.deleteVideo (Normal response) = Throw e)
  ∧ (∀ err detail,
       json response = Normal err →
       get err "detail" = Normal detail →
       truthy detail = false →
       Api.startGeneration (Normal response)
       = Throw (Error "Failed to start generation")
       ∧ Api.startTraining (Normal response)
         = Throw (Error "Failed to start training")
       ∧ Api.stopTraining (Normal response)
         = Throw (Error "Failed to stop training")
       ∧ Api.getTrainingStatus (Normal response)
         = Throw (Error "Failed to get training status")
       ∧ Api.uploadImage (Normal response)
         = Throw (Error "Failed to upload image")
       ∧ Api.uploadVideo (Normal response)
         = Throw (Error "Failed to upload video")
       ∧ Api.deleteVideo (Normal response)
         = Throw (Error "Failed to delete video")).
Proof.
  intros Hok. split.
  - intros e Hjson.
    unfold Api.startGeneration, Api.startTraining, Api.stopTraining,
      Api.getTrainingStatus, Api.uploadImage, Api.uploadVideo, Api.upload,
      Api.deleteVideo.
    run_eff. rewrite Hok. cbn.
    repeat split; now apply throw_detail_unreadable.
  - intros err detail Hjson Hget Hfalsy.
    unfold Api.startGeneration, Api.startTraining, Api.stopTraining,
      Api.getTrainingStatus, Api.uploadImage, Api.uploadVideo, Api.upload,
      Api.deleteVideo.
    run_eff. rewrite Hok. cbn.
    repeat split; eapply throw_detail_fallback; eauto.
Qed.

Lemma unreadable_error_body_hides_fallback_witness :
  Api.stopTraining (Normal (mkResponse false (Throw SyntaxError))) = Throw SyntaxError
  ∧ Api.uploadImage (Normal (mkResponse false (Normal (JObj []))))
    = Throw (Error "Failed to upload image").
Proof.
  split.
  - apply (proj1 (unreadable_error_body_hides_fallback
                    (mkResponse false (Throw SyntaxError)) eq_refl)).
    reflexivity.
  - apply (proj2 (unreadable_error_body_hides_fallback
                    (mkResponse false (Normal (JObj []))) eq_refl)
                 (JObj []) JUndefined); reflexivity.
Defined.



(** X3: listVideos, listCheckpoints and listLoras turn only a non-ok
    response into the empty list: a fetch that fails is rethrown, and so is
    the parse error of an ok response whose body does not parse; an array
    found under the expected field, also an empty one, is returned as it
    is. *)
Theorem listing_rethrows_what_is_not_http
    (lister : Completion Response → Completion JValue) (key : string) :
  In (lister, key)
     [(Api.listVideos, "videos"); (Api.listCheckpoints, "checkpoints");
      (Api.listLoras, "loras")] →
  (∀ e, lister (Throw e) = Throw e)
  ∧ (∀ response e,
       ok response = true → json response = Throw e →
       lister (Normal response) = Throw e)
  ∧ (∀ response data items,
       ok response = true → json response = Normal data →
       get data key = Normal (JArr items) →
       lister (Normal response) = Normal (JArr items)).
Proof.
  intros Hin.
  assert (Hshape : lister = Api.list_of key).
  { destruct Hin as [H|[H|[H|[]]]]; now inversion H. }
  subst lister. unfold Api.list_of. run_eff. split; [reflexivity|]. split.
  - intros response e Hok Hjson. now rewrite Hok, Hjson.
  - intros response data items Hok Hjson Hget. rewrite Hok, Hjson. cbn.
    now rewrite Hget.
Qed.

Lemma listing_rethrows_what_is_not_http_witness :
  Api.listVideos (Normal (mkResponse true (Throw SyntaxError))) = Throw SyntaxError.
Proof.
  apply (proj1 (proj2 (listing_rethrows_what_is_not_http Api.listVideos "videos"
                         (or_introl eq_refl)))); reflexivity.
Defined.

(** ** Rounding to doubles *)

Lemma pow2_pos e : (0 < Double.pow2 e)%Q.
Proof. apply Qpower_0_lt. reflexivity. Qed.

Lemma pow2_plus a b : (Double.pow2 (a + b) == Double.pow2 a * Double.pow2 b)%Q.
Proof. apply Qpower_plus. discriminate. Qed.

Lemma pow2_lt_inv a b : (Double.pow2 a < Double.pow2 b)%Q → a < b.
Proof. intros H. eapply Qpower_lt_compat_l_inv; [exact H|reflexivity]. Qed.

Lemma pow2_Z n : 0 ≤ n → (Double.pow2 n == inject_Z (2 ^ n))%Q.
Proof. intros H. unfold Double.pow2. now rewrite (Zpower_Qpower 2 n H). Qed.

(** [ilog2] is the binary logarithm, rounded down. *)
Lemma ilog2_spec (x : Q) :
  (0 < x)%Q → (Double.pow2 (Double.ilog2 x) <= x)%Q ∧ (x < Double.pow2 (Double.ilog2 x + 1))%Q.
Proof.
  intros Hx. destruct x as [a b].
  assert (Ha : 0 < a).
  { unfold Qlt in Hx. cbn in Hx. lia. }
  unfold Double.ilog2. cbn [Qnum Qden].
  set (la := Z.log2 a). set (lb := Z.log2 (Z.pos b)).
  destruct (Z.log2_spec a Ha) as [Hla1 Hla2]. fold la in Hla1, Hla2.
  destruct (Z.log2_spec (Z.pos b) ltac:(lia)) as [Hlb1 Hlb2]. fold lb in Hlb1, Hlb2.
  assert (Hla0 : 0 ≤ la) by apply Z.log2_nonneg.
  assert (Hlb0 : 0 ≤ lb) by apply Z.log2_nonneg.
  assert (Hdiv : ∀ n m : Z, 0 ≤ n → 0 ≤ m →
                 (Double.pow2 (n - m) == inject_Z (2 ^ n) / inject_Z (2 ^ m))%Q).
  { intros n m Hn Hm. unfold Double.pow2. rewrite Qpower_minus by discriminate.
    now rewrite <- !(Zpower_Qpower 2) by assumption. }
  assert (Hb : (0 < inject_Z (Z.pos b))%Q) by reflexivity.
  assert (H2 : ∀ n, 0 ≤ n → (0 < inject_Z (2 ^ n))%Q).
  { intros n Hn. change 0%Q with (inject_Z 0). rewrite <- Zlt_Qlt.
    apply Z.pow_pos_nonneg; lia. }
  replace (Z.succ la) with (la + 1) in Hla2 by lia.
  replace (Z.succ lb) with (lb + 1) in Hlb2 by lia.
  assert (Hup : (a # b < Double.pow2 (la - lb + 1))%Q).
  { replace (la - lb + 1) with ((la + 1) - lb) by lia.
    rewrite Hdiv by lia.
    apply Qlt_shift_div_l; [apply H2; lia|].
    unfold Qlt, Qmult, inject_Z. cbn [Qnum Qden].
    rewrite Pos.mul_1_r, Z.mul_1_r.
    apply Z.le_lt_trans with (a * Z.pos b).
    - apply Z.mul_le_mono_nonneg_l; lia.
    - apply Z.mul_lt_mono_pos_r; lia. }
  assert (Hlow : (Double.pow2 (la - lb - 1) <= a # b)%Q).
  { replace (la - lb - 1) with (la - (lb + 1)) by lia.
    rewrite Hdiv by lia.
    apply Qle_shift_div_r; [apply H2; lia|].
    unfold Qle, Qmult, inject_Z. cbn [Qnum Qden].
    rewrite Pos.mul_1_r, Z.mul_1_r.
    apply Z.mul_le_mono_nonneg; lia. }
  destruct (Qle_bool (Double.pow2 (la - lb)) (a # b)) eqn:Hcmp.
  - apply Qle_bool_iff in Hcmp. split; assumption.
  - split; [exact Hlow|].
    replace (la - lb - 1 + 1) with (la - lb) by lia.
    apply Qnot_le_lt. intros Hle. apply Qle_bool_iff in Hle. congruence.
Qed.

Lemma ilog2_lt (x : Q) (n : Z) :
  (0 < x)%Q → (x < Double.pow2 n)%Q → Double.ilog2 x < n.
Proof.
  intros Hx Hn. destruct (ilog2_spec x Hx) as [Hlow _].
  apply pow2_lt_inv. eapply Qle_lt_trans; eauto.
Qed.

Lemma ilog2_ge (x : Q) (n : Z) :
  (Double.pow2 n <= x)%Q → n ≤ Double.ilog2 x.
Proof.
  intros Hn.
  assert (Hx : (0 < x)%Q) by (eapply Qlt_le_trans; [apply pow2_pos|exact Hn]).
  destruct (ilog2_spec x Hx) as [_ Hup].
  assert (n < Double.ilog2 x + 1); [|lia].
  apply pow2_lt_inv. eapply Qle_lt_trans; eauto.
Qed.

(** Rounding to the nearest integer stays on the near side of an integer. *)
Lemma rne_le_half (x : Q) (N : Z) :
  (x < inject_Z N + (1 # 2))%Q → Double.rne x ≤ N.
Proof.
  intros Hx. unfold Double.rne.
  pose proof (Qfloor_le x) as Hfl.
  assert (Hf : Qfloor x ≤ N).
  { assert (H : (inject_Z (Qfloor x) < inject_Z (N + 1))%Q).
    { eapply Qle_lt_trans; [exact Hfl|]. eapply Qlt_le_trans; [exact Hx|].
      rewrite inject_Z_plus. apply Qplus_le_r. discriminate. }
    rewrite <- Zlt_Qlt in H. lia. }
  destruct (Z.eq_dec (Qfloor x) N) as [Heq|Hne].
  - assert (Hlt : (x - inject_Z (Qfloor x) < 1 # 2)%Q).
    { rewrite Heq. clear -Hx. destruct x as [a b].
      unfold Qlt, Qminus, Qplus, Qopp, inject_Z in *. cbn [Qnum Qden] in *. lia. }
    rewrite (proj1 (Qlt_alt _ _) Hlt). lia.
  - destruct (x - inject_Z (Qfloor x) ?= 1 # 2)%Q; [destruct (Z.even _)| |]; lia.
Qed.

Lemma rne_le (x : Q) (N : Z) : (x <= inject_Z N)%Q → Double.rne x ≤ N.
Proof.
  intros Hx. apply rne_le_half. eapply Qle_lt_trans; [exact Hx|].
  rewrite <- (Qplus_0_r (inject_Z N)) at 1. apply Qplus_lt_r. reflexivity.
Qed.

Lemma rne_ge (x : Q) (N : Z) : (inject_Z N <= x)%Q → N ≤ Double.rne x.
Proof.
  intros Hx. unfold Double.rne.
  assert (Hf : N ≤ Qfloor x).
  { rewrite <- (Qfloor_Z N). now apply Qfloor_resp_le. }
  destruct (x - inject_Z (Qfloor x) ?= 1 # 2)%Q; [destruct (Z.even _)| |]; lia.
Qed.

Lemma fl_positive (x : Q) :
  (0 < x)%Q →
  Double.fl x = (inject_Z (Double.mantissa x) * Double.pow2 (Double.exponent x))%Q.
Proof. intros Hx. unfold Double.fl. now rewrite (proj1 (Qgt_alt _ _) Hx). Qed.

Lemma fl_zero (x : Q) : (x == 0)%Q → Double.fl x = 0%Q.
Proof. intros Hx. unfold Double.fl. now rewrite (proj1 (Qeq_alt _ _) Hx). Qed.

Lemma fl_nonneg (x : Q) : (0 <= x)%Q → (0 <= Double.fl x)%Q.
Proof.
  intros Hx. destruct (Qlt_le_dec 0 x) as [Hpos|Hle].
  - rewrite fl_positive by exact Hpos.
    apply Qmult_le_0_compat; [|apply Qlt_le_weak, pow2_pos].
    change 0%Q with (inject_Z 0). rewrite <- Zle_Qle. apply rne_ge.
    apply Qle_shift_div_l; [apply pow2_pos|]. rewrite Qmult_0_l. exact Hx.
  - rewrite fl_zero; [discriminate|]. now apply Qle_antisym.
Qed.

(** A value below a point of its own grid is rounded to below that point;
    half a step more is still rounded down. *)
Lemma fl_le_half (x : Q) (N e : Z) :
  (0 < x)%Q → Double.exponent x = e →
  (x < (inject_Z N + (1 # 2)) * Double.pow2 e)%Q →
  (Double.fl x <= inject_Z N * Double.pow2 e)%Q.
Proof.
  intros Hx <- Hlt. rewrite fl_positive by exact Hx.
  apply Qmult_le_compat_r; [|apply Qlt_le_weak, pow2_pos].
  rewrite <- Zle_Qle. apply rne_le_half.
  apply Qlt_shift_div_r; [apply pow2_pos|exact Hlt].
Qed.

Lemma fl_le_grid (x : Q) (N e : Z) :
  (0 < x)%Q → Double.exponent x ≤ e →
  (x <= inject_Z N * Double.pow2 e)%Q →
  (Double.fl x <= inject_Z N * Double.pow2 e)%Q.
Proof.
  intros Hx He Hle. rewrite fl_positive by exact Hx.
  set (ex := Double.exponent x) in *.
  assert (Hsplit : (inject_Z N * Double.pow2 e
                    == inject_Z (N * 2 ^ (e - ex)) * Double.pow2 ex)%Q).
  { rewrite inject_Z_mult, <- pow2_Z by lia. rewrite <- Qmult_assoc, <- pow2_plus.
    now replace (e - ex + ex) with e by lia. }
  rewrite Hsplit in *.
  apply Qmult_le_compat_r; [|apply Qlt_le_weak, pow2_pos].
  rewrite <- Zle_Qle. apply rne_le.
  apply Qle_shift_div_r; [apply pow2_pos|exact Hle].
Qed.

Lemma exponent_le (x : Q) (n : Z) :
  (0 < x)%Q → (x < Double.pow2 n)%Q → -1021 ≤ n → Double.exponent x ≤ n - 53.
Proof.
  intros Hx Hn Hrange. pose proof (ilog2_lt x n Hx Hn). unfold Double.exponent. lia.
Qed.

Lemma exponent_eq (x : Q) (n : Z) :
  (Double.pow2 n <= x)%Q → (x < Double.pow2 (n + 1))%Q → -1022 ≤ n →
  Double.exponent x = n - 52.
Proof.
  intros Hlow Hup Hrange.
  assert (Hx : (0 < x)%Q) by (eapply Qlt_le_trans; [apply pow2_pos|exact Hlow]).
  pose proof (ilog2_ge x n Hlow). pose proof (ilog2_lt x (n + 1) Hx Hup).
  unfold Double.exponent. lia.
Qed.

(** The largest double below 1 is 1 - 2^-53. *)
Lemma double_below_one (r : Q) :
  (Double.fl r == r)%Q → (r < 1)%Q → (r <= 9007199254740991 # 9007199254740992)%Q.
Proof.
  intros Hfix Hlt.
  destruct (Qlt_le_dec r (1 # 2)) as [Hsmall|Hhalf].
  { apply Qlt_le_weak. eapply Qlt_le_trans; [exact Hsmall|discriminate]. }
  assert (Hr : (0 < r)%Q) by (eapply Qlt_le_trans; [|exact Hhalf]; reflexivity).
  assert (Hexp : Double.exponent r = -53).
  { apply (exponent_eq r (-1)); [exact Hhalf|exact Hlt|lia]. }
  rewrite fl_positive in Hfix by exact Hr. rewrite Hexp in Hfix.
  change (Double.pow2 (-53)) with (1 # 9007199254740992)%Q in Hfix.
  set (M := Double.mantissa r) in *.
  rewrite <- Hfix in Hlt |- *.
  assert (HM : M < 9007199254740992).
  { unfold Qlt, Qmult, inject_Z in Hlt. cbn [Qnum Qden] in Hlt. lia. }
  unfold Qle, Qmult, inject_Z. cbn [Qnum Qden]. lia.
Qed.

Lemma fl_le_one (x : Q) : (0 <= x)%Q → (x <= 1)%Q → (Double.fl x <= 1)%Q.
Proof.
  intros Hlo Hhi. destruct (Qlt_le_dec 0 x) as [Hpos|Hzero].
  2:{ rewrite fl_zero; [discriminate|]. now apply Qle_antisym. }
  apply Qle_trans with (inject_Z (2 ^ 52) * Double.pow2 (-52))%Q; [|discriminate].
  apply fl_le_grid; [exact Hpos| |eapply Qle_trans; [exact Hhi|discriminate]].
  replace (-52) with (1 - 53) by lia. apply exponent_le; [exact Hpos| |lia].
  eapply Qle_lt_trans; [exact Hhi|reflexivity].
Qed.

Lemma fl_le_hundred (x : Q) : (0 <= x)%Q → (x <= 100)%Q → (Double.fl x <= 100)%Q.
Proof.
  intros Hlo Hhi. destruct (Qlt_le_dec 0 x) as [Hpos|Hzero].
  2:{ rewrite fl_zero; [discriminate|]. now apply Qle_antisym. }
  apply Qle_trans with (inject_Z (100 * 2 ^ 46) * Double.pow2 (-46))%Q; [|discriminate].
  apply fl_le_grid; [exact Hpos| |eapply Qle_trans; [exact Hhi|discriminate]].
  replace (-46) with (7 - 53) by lia. apply exponent_le; [exact Hpos| |lia].
  eapply Qle_lt_trans; [exact Hhi|reflexivity].
Qed.

(** ** Frame counts, resolutions and seeds *)

Lemma Math_round_eighths (z : Z) :
  ParameterPanel.Math_round ((inject_Z z - 1) / 8) = (z + 3) / 8.
Proof.
  unfold ParameterPanel.Math_round.
  assert (Heq : ((inject_Z z - 1) / 8 + (1 # 2) == (z + 3) # 8)%Q).
  { unfold Qeq, Qplus, Qminus, Qdiv, Qmult, Qinv, Qopp, inject_Z. cbn. lia. }
  rewrite Heq. reflexivity.
Qed.

Lemma snap_frames_integer (z : Z) :
  ParameterPanel.snap_frames (inject_Z z) = 1 + (z + 3) / 8 * 8.
Proof. unfold ParameterPanel.snap_frames. now rewrite Math_round_eighths. Qed.

(** X4: a frame count of the form 1 + 8 k within 9 and 4097 is stored
    unchanged by the numeric input and by the slider, and every frame
    preset is such a count. *)
Theorem valid_frame_counts_are_kept :
  (∀ n : Z,
     ParameterPanel.valid_frames n →
     ParameterPanel.frames_onChange (Some n) = Some n
     ∧ ParameterPanel.frames_onValueChange (inject_Z n) = n)
  ∧ Forall ParameterPanel.valid_frames ParameterPanel.framePresets.
Proof.
  split.
  - intros n [[k [Hk ->]] Hrange].
    assert (Hsnap : ParameterPanel.snap_frames (inject_Z (1 + 8 * k)) = 1 + 8 * k).
    { rewrite snap_frames_integer.
      replace ((1 + 8 * k + 3) / 8) with k; [lia|].
      apply (Z.div_unique _ _ _ 4); lia. }
    unfold ParameterPanel.frames_onChange, ParameterPanel.frames_onValueChange.
    rewrite Hsnap. split; [f_equal; lia|reflexivity].
  - unfold ParameterPanel.framePresets, ParameterPanel.valid_frames.
    repeat constructor;
      solve [ lia
            | exists 2; lia | exists 4; lia | exists 8; lia | exists 30; lia
            | exists 90; lia | exists 180; lia | exists 360; lia | exists 512; lia ].
Qed.

Lemma valid_frame_counts_are_kept_witness :
  ParameterPanel.frames_onChange (Some 241) = Some 241.
Proof.
  apply (proj1 valid_frame_counts_are_kept 241).
  split; [exists 30; lia|lia].
Defined.

(** X5: the numeric input stores the count of the form 1 + 8 k nearest to
    the number typed (a tie going up) when that number lies within 9 and
    4097, and the nearer bound otherwise; a larger number never stores a
    smaller count. *)
Theorem frames_input_rounds_to_nearest (v n : Z) :
  ParameterPanel.frames_onChange (Some v) = Some n →
  (∃ k, n = 1 + 8 * k)
  ∧ (9 ≤ v ≤ 4097 → -3 ≤ n - v ≤ 4)
  ∧ (v < 9 → n = 9)
  ∧ (4097 < v → n = 4097)
  ∧ (∀ w m, v ≤ w → ParameterPanel.frames_onChange (Some w) = Some m → n ≤ m).
Proof.
  unfold ParameterPanel.frames_onChange. rewrite snap_frames_integer.
  intros Heq. injection Heq as <-.
  pose proof (Z.div_mod (v + 3) 8 ltac:(lia)) as Hdm.
  pose proof (Z.mod_pos_bound (v + 3) 8 ltac:(lia)) as Hmod.
  split.
  { destruct (Z_lt_le_dec ((v + 3) / 8) 1); [exists 1; lia|].
    destruct (Z_lt_le_dec 512 ((v + 3) / 8)); [exists 512; lia|].
    exists ((v + 3) / 8). lia. }
  repeat split; try lia.
  intros w m Hvw Hm. rewrite snap_frames_integer in Hm. injection Hm as <-.
  pose proof (Z.div_le_mono (v + 3) (w + 3) 8 ltac:(lia) ltac:(lia)). lia.
Qed.

Lemma frames_input_rounds_to_nearest_witness :
  ParameterPanel.frames_onChange (Some 13) = Some 17 ∧ -3 ≤ 17 - 13 ≤ 4.
Proof.
  split; [reflexivity|].
  apply (proj1 (proj2 (frames_input_rounds_to_nearest 13 17 eq_refl))). lia.
Defined.

(** X6: for every position within its bounds 256 and 4096 the width or
    height slider stores a multiple of 32 within those bounds, and a
    multiple of 32 is stored unchanged. *)
Theorem resolution_is_a_multiple_of_32 :
  (∀ v : Q,
     (ParameterPanel.resolution_min <= v)%Q → (v <= ParameterPanel.resolution_max)%Q →
     ∃ k, 8 ≤ k ≤ 128 ∧ ParameterPanel.snap_resolution v = 32 * k)
  ∧ (∀ k : Z, ParameterPanel.snap_resolution (inject_Z (32 * k)) = 32 * k).
Proof.
  split.
  - intros v Hlo Hhi. unfold ParameterPanel.snap_resolution.
    exists (ParameterPanel.Math_round (v / 32)). split; [|lia].
    apply Math_round_between.
    + apply Qplus_le_l. apply Qle_shift_div_l; [reflexivity|]. exact Hlo.
    + apply Qplus_le_l. apply Qle_shift_div_r; [reflexivity|]. exact Hhi.
  - intros k. unfold ParameterPanel.snap_resolution, ParameterPanel.Math_round.
    assert (Heq : (inject_Z (32 * k) / 32 + (1 # 2) == (2 * k + 1) # 2)%Q).
    { unfold Qeq, Qplus, Qdiv, Qmult, Qinv, inject_Z. cbn. lia. }
    rewrite Heq. unfold Qfloor.
    replace ((2 * k + 1) / Z.pos 2) with k; [lia|].
    apply (Z.div_unique _ _ _ 1); lia.
Qed.

Lemma resolution_is_a_multiple_of_32_witness :
  ∃ k, 8 ≤ k ≤ 128 ∧ ParameterPanel.snap_resolution 1000 = 32 * k.
Proof.
  apply (proj1 resolution_is_a_multiple_of_32 1000%Q); discriminate.
Defined.

(** X7: the seed drawn by the shuffle button is an integer from 0 up to
    2147483646, whatever double below 1 the random source gives, the
    product being rounded to a double before the floor is taken. *)
Theorem random_seed_range (random : Q) :
  (Double.fl random == random)%Q → (0 <= random)%Q → (random < 1)%Q →
  0 ≤ ParameterPanel.generateRandomSeed random ≤ 2147483646.
Proof.
  intros Hfix Hlo Hhi. unfold ParameterPanel.generateRandomSeed.
  set (p := (random * 2147483647)%Q).
  assert (Hp0 : (0 <= p)%Q).
  { unfold p. apply Qmult_le_0_compat; [exact Hlo|discriminate]. }
  split.
  { change 0 with (Qfloor 0). apply Qfloor_resp_le. now apply fl_nonneg. }
  assert (Htop : (Double.fl p <= inject_Z 9007199250546687 * Double.pow2 (-22))%Q).
  { destruct (Qlt_le_dec 0 p) as [Hpos|Hzero].
    2:{ rewrite fl_zero; [discriminate|]. now apply Qle_antisym. }
    assert (Hp1 : (p <= (9007199254740991 # 9007199254740992) * 2147483647)%Q).
    { unfold p. apply Qmult_le_compat_r; [|discriminate].
      now apply double_below_one. }
    destruct (Qlt_le_dec p (Double.pow2 30)) as [Hsmall|Hlarge].
    - apply Qle_trans with (inject_Z (2 ^ 53) * Double.pow2 (-23))%Q; [|discriminate].
      apply fl_le_grid; [exact Hpos| |].
      + replace (-23) with (30 - 53) by lia. apply exponent_le; [exact Hpos|exact Hsmall|lia].
      + apply Qlt_le_weak. eapply Qlt_le_trans; [exact Hsmall|discriminate].
    - apply fl_le_half; [exact Hpos| |].
      + apply (exponent_eq p 30); [exact Hlarge| |lia].
        eapply Qle_lt_trans; [exact Hp1|reflexivity].
      + eapply Qle_lt_trans; [exact Hp1|reflexivity]. }
  apply Qfloor_resp_le in Htop.
  change (Qfloor (inject_Z 9007199250546687 * Double.pow2 (-22))) with 2147483646 in Htop.
  exact Htop.
Qed.

Lemma random_seed_range_witness :
  0 ≤ ParameterPanel.generateRandomSeed (9007199254740991 # 9007199254740992) ≤ 2147483646.
Proof.
  apply random_seed_range; [reflexivity|discriminate|reflexivity].
Defined.

(** ** The extra arguments field *)

Lemma append_empty_r (s : string) : s +:+ EmptyString = s.
Proof.
  induction s as [|c s IH]; [reflexivity|].
  change (String c (s +:+ EmptyString) = String c s). now rewrite IH.
Qed.

Lemma append_assoc (a b c : string) : (a +:+ b) +:+ c = a +:+ (b +:+ c).
Proof.
  induction a as [|x a IH]; [reflexivity|].
  change (String x ((a +:+ b) +:+ c) = String x (a +:+ (b +:+ c))). now rewrite IH.
Qed.

Lemma spaceless_append (a b : string) :
  ParameterPanel.spaceless (a +:+ b)
  = ParameterPanel.spaceless a && ParameterPanel.spaceless b.
Proof.
  induction a as [|c a IH]; [reflexivity|].
  change (negb (Ascii.eqb c " ") && ParameterPanel.spaceless (a +:+ b)
          = negb (Ascii.eqb c " ") && ParameterPanel.spaceless a
            && ParameterPanel.spaceless b).
  rewrite IH. now rewrite andb_assoc.
Qed.

Lemma split_from_cons (acc : string) (c : ascii) (rest : string) :
  ParameterPanel.split_from acc (String c rest)
  = if Ascii.eqb c " " then acc :: ParameterPanel.split_from EmptyString rest
    else ParameterPanel.split_from (acc +:+ String c EmptyString) rest.
Proof. reflexivity. Qed.

Lemma spaceless_cons (c : ascii) (s : string) :
  ParameterPanel.spaceless (String c s)
  = negb (Ascii.eqb c " ") && ParameterPanel.spaceless s.
Proof. reflexivity. Qed.

Lemma split_from_spaceless (s : string) : ∀ acc,
  ParameterPanel.spaceless acc = true →
  Forall (fun piece => ParameterPanel.spaceless piece = true)
         (ParameterPanel.split_from acc s).
Proof.
  induction s as [|c s IH]; intros acc Hacc.
  - now constructor.
  - rewrite split_from_cons. destruct (Ascii.eqb c " ") eqn:Hc.
    + constructor; [exact Hacc|]. now apply IH.
    + apply IH. rewrite spaceless_append, Hacc, spaceless_cons, Hc. reflexivity.
Qed.

Lemma split_from_token (t : string) : ∀ acc,
  ParameterPanel.spaceless t = true →
  ParameterPanel.split_from acc t = [acc +:+ t].
Proof.
  induction t as [|c t IH]; intros acc Ht.
  - now rewrite append_empty_r.
  - rewrite spaceless_cons in Ht.
    apply andb_prop in Ht as [Hc Ht]. apply negb_true_iff in Hc.
    rewrite split_from_cons, Hc, IH by exact Ht. now rewrite append_assoc.
Qed.

Lemma split_from_token_space (t rest : string) : ∀ acc,
  ParameterPanel.spaceless t = true →
  ParameterPanel.split_from acc (t +:+ String " " rest)
  = (acc +:+ t) :: ParameterPanel.split_from EmptyString rest.
Proof.
  induction t as [|c t IH]; intros acc Ht.
  - change (EmptyString +:+ String " " rest) with (String " " rest).
    rewrite split_from_cons. now rewrite append_empty_r.
  - rewrite spaceless_cons in Ht.
    apply andb_prop in Ht as [Hc Ht]. apply negb_true_iff in Hc.
    change (String c t +:+ String " " rest) with (String c (t +:+ String " " rest)).
    rewrite split_from_cons, Hc, IH by exact Ht. now rewrite append_assoc.
Qed.

(** X8: whatever is typed into the extra arguments field, every argument
    stored is non-empty and holds no space; and a stored list of such
    arguments, shown joined by single spaces and read back, is the same
    list. *)
Theorem extra_args_round_trip :
  (∀ text : string,
     Forall (fun piece => ParameterPanel.is_argument piece = true)
            (ParameterPanel.extra_args_onChange text))
  ∧ (∀ args : list string,
       Forall (fun piece => ParameterPanel.is_argument piece = true) args →
       ParameterPanel.extra_args_onChange (ParameterPanel.extra_args_value (Some args))
       = args).
Proof.
  split.
  - intros text. unfold ParameterPanel.extra_args_onChange, ParameterPanel.split.
    pose proof (split_from_spaceless text EmptyString eq_refl) as Hall.
    induction Hall as [|piece pieces Hpiece _ IH]; cbn [List.filter]; [constructor|].
    destruct (String.eqb piece EmptyString) eqn:Hempty; cbn [negb]; [exact IH|].
    constructor; [|exact IH].
    unfold ParameterPanel.is_argument. now rewrite Hempty, Hpiece.
  - unfold ParameterPanel.extra_args_onChange, ParameterPanel.extra_args_value,
      ParameterPanel.split.
    cbn [default from_option id].
    induction 1 as [|t args Ht Hargs IH]; [reflexivity|].
    unfold ParameterPanel.is_argument in Ht.
    apply andb_prop in Ht as [Hne Hsp]. 
    destruct args as [|t' args].
    + cbn [ParameterPanel.join]. rewrite split_from_token by exact Hsp.
      change (EmptyString +:+ t) with t. cbn [List.filter].
      now rewrite Hne.
    + change (ParameterPanel.join (t :: t' :: args))
        with (t +:+ String " " (ParameterPanel.join (t' :: args))).
      rewrite split_from_token_space by exact Hsp.
      change (EmptyString +:+ t) with t. cbn [List.filter].
      rewrite Hne. f_equal. exact IH.
Qed.

Lemma extra_args_round_trip_witness :
  ParameterPanel.extra_args_onChange
    (ParameterPanel.extra_args_value (Some ["--max-tokens"; "512"]))
  = ["--max-tokens"; "512"].
Proof.
  apply (proj2 extra_args_round_trip). repeat constructor.
Defined.

(** ** The step and the download bar of the progress indicator *)

Lemma by_threshold_steps (progress : Q) :
  ProgressIndicator.by_threshold (length ProgressIndicator.steps) progress
  = if Qle_bool 95 progress then 3%nat
    else if Qle_bool 85 progress then 2%nat
    else if Qle_bool 10 progress then 1%nat
    else 0%nat.
Proof.
  cbn. unfold ProgressIndicator.threshold. cbn.
  destruct (Qle_bool 95 progress); [reflexivity|].
  destruct (Qle_bool 85 progress); [reflexivity|].
  destruct (Qle_bool 10 progress); [reflexivity|].
  now destruct (Qle_bool 0 progress).
Qed.

Lemma no_marker_falls_to_thresholds (line : string) (progress : Q) :
  ProgressIndicator.phases_present line = [] →
  ProgressIndicator.getCurrentStepIndex (Some line) progress
  = ProgressIndicator.by_threshold (length ProgressIndicator.steps) progress.
Proof.
  unfold ProgressIndicator.getCurrentStepIndex, ProgressIndicator.phases_present,
    ProgressIndicator.markers.
  change (default "" (Some line)) with line.
  generalize (ProgressIndicator.toLowerCase line) as text. intros text.
  cbn [List.filter map fst snd].
  destruct (ProgressIndicator.includes text "saving");
    destruct (ProgressIndicator.includes text "finaliz");
    destruct (ProgressIndicator.includes text "mux");
    destruct (ProgressIndicator.includes text "decod");
    destruct (ProgressIndicator.includes text "streaming frames");
    destruct (ProgressIndicator.includes text "denois");
    destruct (ProgressIndicator.includes text "stage 1");
    destruct (ProgressIndicator.includes text "stage 2");
    destruct (ProgressIndicator.includes text "load");
    destruct (ProgressIndicator.includes text "encod");
    cbn [orb map snd]; intros Hnone;
    solve [reflexivity | discriminate Hnone].
Qed.

(** X9: the step index is always a position of the steps table (0 to 3),
    for every status line, absent or not, and every progress value; for a
    line without any marker it is the step of the highest threshold (95,
    85, 10) that the progress has reached, and 0 below them. *)
Theorem step_index_in_range_and_by_threshold
    (currentStep : option string) (progress : Q) :
  (ProgressIndicator.getCurrentStepIndex currentStep progress
   < length ProgressIndicator.steps)%nat
  ∧ (∀ line,
       currentStep = Some line →
       ProgressIndicator.phases_present line = [] →
       let shown := ProgressIndicator.getCurrentStepIndex currentStep progress in
       ((95 <= progress)%Q → shown = 3%nat)
       ∧ ((85 <= progress)%Q → (progress < 95)%Q → shown = 2%nat)
       ∧ ((10 <= progress)%Q → (progress < 85)%Q → shown = 1%nat)
       ∧ ((progress < 10)%Q → shown = 0%nat)).
Proof.
  split.
  - unfold ProgressIndicator.getCurrentStepIndex.
    repeat match goal with
           | |- context [if ?b then _ else _] =>
               lazymatch b with
               | context [ProgressIndicator.includes] => destruct b
               end
           end; cbn [length ProgressIndicator.steps]; try lia.
    rewrite by_threshold_steps.
    destruct (Qle_bool 95 progress), (Qle_bool 85 progress), (Qle_bool 10 progress);
      cbn; lia.
  - intros line -> Hnone. cbv zeta.
    rewrite (no_marker_falls_to_thresholds line progress Hnone), by_threshold_steps.
    assert (Hb : ∀ t, Qle_bool t progress = false → (progress < t)%Q).
    { intros t Hf. apply Qnot_le_lt. intros Hle.
      apply Qle_bool_iff in Hle. congruence. }
    assert (Hn : ∀ t, (progress < t)%Q → Qle_bool t progress = false).
    { intros t Hlt. destruct (Qle_bool t progress) eqn:Hle; [|reflexivity].
      apply Qle_bool_iff in Hle. exfalso. eapply Qlt_not_le; eauto. }
    repeat split.
    + intros H. apply Qle_bool_iff in H. now rewrite H.
    + intros H Hlt. apply Qle_bool_iff in H. now rewrite (Hn _ Hlt), H.
    + intros H Hlt. apply Qle_bool_iff in H.
      rewrite (Hn 85%Q Hlt), H.
      rewrite (Hn 95%Q) by (eapply Qlt_trans; [exact Hlt|reflexivity]). reflexivity.
    + intros Hlt.
      rewrite (Hn 10%Q Hlt).
      rewrite (Hn 85%Q) by (eapply Qlt_trans; [exact Hlt|reflexivity]).
      rewrite (Hn 95%Q) by (eapply Qlt_trans; [exact Hlt|reflexivity]). reflexivity.
Qed.

Lemma step_index_in_range_and_by_threshold_witness :
  ProgressIndicator.getCurrentStepIndex (Some "Working") 90 = 2%nat.
Proof.
  apply (proj2 (step_index_in_range_and_by_threshold (Some "Working") 90)
               "Working" eq_refl eq_refl); [discriminate|reflexivity].
Defined.

(** X10: the width of the download bar lies within 0 and 100 whatever the
    download progress is, equals the download progress when that lies
    within 0 and 100, and the bar is shown only while the status is pending
    or processing. *)
Theorem download_bar_is_clamped (downloadProgress : option Q) :
  (0 <= ProgressIndicator.downloadValue downloadProgress)%Q
  ∧ (ProgressIndicator.downloadValue downloadProgress <= 100)%Q
  ∧ (∀ p, downloadProgress = Some p → (0 <= p)%Q → (p <= 100)%Q →
       (ProgressIndicator.downloadValue downloadProgress == p)%Q)
  ∧ (∀ status downloadStep,
       ProgressIndicator.showDownload status downloadProgress downloadStep = true →
       status = VideoGenerator.Status.pending
       ∨ status = VideoGenerator.Status.processing).
Proof.
  unfold ProgressIndicator.downloadValue. repeat split.
  - apply Q.min_glb; [discriminate|apply Q.le_max_l].
  - apply Q.le_min_l.
  - intros p -> Hlo Hhi.
    destruct (Qeq_bool p 0) eqn:Hz.
    + apply Qeq_bool_iff in Hz. rewrite Hz. reflexivity.
    + rewrite Q.max_r by exact Hlo. now rewrite Q.min_r.
  - intros status downloadStep Hshow. destruct status; cbn in Hshow; auto; discriminate.
Qed.

Lemma download_bar_is_clamped_witness :
  (ProgressIndicator.downloadValue (Some (125 # 2)) == 125 # 2)%Q.
Proof.
  apply (proj1 (proj2 (proj2 (download_bar_is_clamped (Some (125 # 2)%Q))))
               (125 # 2)%Q eq_refl); discriminate.
Defined.

(** ** What socket events do to the generation form *)

Lemma dispatch_effect JSON_parse job params ev s :
  let r := VideoGenerator.dispatch JSON_parse job params ev s in
  r.2 = Normal tt
  ∧ VideoGenerator.sockets r.1 = VideoGenerator.sockets s
  ∧ (VideoGenerator.history r.1 = VideoGenerator.history s
     ∨ ∃ item, VideoGenerator.history r.1 = item :: take 9 (VideoGenerator.history s))
  ∧ (VideoGenerator.status r.1 = VideoGenerator.status s
     ∨ VideoGenerator.status r.1 = VideoGenerator.Status.processing
     ∨ VideoGenerator.status r.1 = VideoGenerator.Status.completed
     ∨ VideoGenerator.status r.1 = VideoGenerator.Status.error).
Proof.
  cbv zeta. destruct ev as [data| |];
    [|cbn; repeat split; auto|cbn; repeat split; auto].
  unfold VideoGenerator.dispatch, Socket.dispatch, Socket.onmessage. run_eff.
  destruct (JSON_parse data) as [update|e]; cbn; [|repeat split; auto].
  unfold VideoGenerator.onMessage. run_eff.
  destruct (get update "type") as [type|e]; cbn; [|repeat split; auto].
  destruct (is_str type "progress"); cbn.
  { destruct (get update "progress"); cbn; [|repeat split; auto].
    destruct (get update "current_step"); cbn; repeat split; auto. }
  destruct (is_str type "complete"); cbn.
  { destruct (get update "output_path"); cbn; [|repeat split; auto].
    destruct (get job "job_id"); cbn; repeat split; eauto. }
  destruct (is_str type "error"); cbn.
  { destruct (get update "error"); cbn; repeat split; auto. }
  repeat split; auto.
Qed.

(** X11: socket events never open a socket, never make the handler throw,
    and never take the form's status back to idle or pending: after any
    run of events the open sockets are the same, and the status is the one
    before or one of processing, completed and error. *)
Theorem events_keep_sockets_and_leave_no_waiting
    (JSON_parse : string → Completion JValue) (job : JValue)
    (params : GenerationParams.t) (events : list WsEvent) (s : VideoGenerator.State) :
  let s' := VideoGenerator.run JSON_parse job params events s in
  VideoGenerator.sockets s' = VideoGenerator.sockets s
  ∧ (VideoGenerator.status s' = VideoGenerator.status s
     ∨ VideoGenerator.status s' = VideoGenerator.Status.processing
     ∨ VideoGenerator.status s' = VideoGenerator.Status.completed
     ∨ VideoGenerator.status s' = VideoGenerator.Status.error)
  ∧ Forall (fun ev => ∀ s0, (VideoGenerator.dispatch JSON_parse job params ev s0).2
                            = Normal tt) events.
Proof.
  cbv zeta. split; [|split].
  - revert s. induction events as [|ev events IH]; intros s; [reflexivity|].
    unfold VideoGenerator.run, Socket.run in *. cbn [foldl].
    rewrite IH. unfold exec.
    apply (dispatch_effect JSON_parse job params ev s).
  - revert s. induction events as [|ev events IH]; intros s; [now left|].
    unfold VideoGenerator.run, Socket.run in *. cbn [foldl].
    destruct (dispatch_effect JSON_parse job params ev s) as (_ & _ & _ & Hst).
    specialize (IH (exec (Socket.dispatch JSON_parse VideoGenerator.console_error
                            (VideoGenerator.onMessage job params)
                            VideoGenerator.onError VideoGenerator.onClose ev) s)).
    unfold exec in *. unfold VideoGenerator.dispatch in Hst.
    destruct IH as [IH|IH]; [rewrite IH; exact Hst|auto].
  - apply Forall_forall. intros ev _ s0.
    apply (dispatch_effect JSON_parse job params ev s0).
Qed.

(** X12: the history never holds more than ten entries: a run of socket
    events on a form whose history has at most ten leaves at most ten. *)
Theorem history_holds_at_most_ten
    (JSON_parse : string → Completion JValue) (job : JValue)
    (params : GenerationParams.t) (events : list WsEvent) (s : VideoGenerator.State) :
  (length (VideoGenerator.history s) ≤ 10)%nat →
  (length (VideoGenerator.history (VideoGenerator.run JSON_parse job params events s))
   ≤ 10)%nat.
Proof.
  revert s. induction events as [|ev events IH]; intros s Hlen; [exact Hlen|].
  unfold VideoGenerator.run, Socket.run in *. cbn [foldl]. apply IH.
  destruct (dispatch_effect JSON_parse job params ev s) as (_ & _ & [Hh|[item Hh]] & _);
    unfold exec, VideoGenerator.dispatch in *; rewrite Hh; [exact Hlen|].
  cbn [length]. rewrite length_take. lia.
Qed.

Lemma history_holds_at_most_ten_witness :
  (length (VideoGenerator.history
             (VideoGenerator.run
                (fun _ => Normal (JObj [("type", JStr "complete");
                                        ("output_path", JStr "out.mp4")]))
                (JObj [("job_id", JStr "job-1")])
                (GenerationParams.mk "a red kite" 512 512 33 42 24
                   GenerationParams.distilled)
                [WsMessage "frame-1"; WsMessage "frame-2"] VideoGenerator.initial))
   ≤ 10)%nat.
Proof.
  apply history_holds_at_most_ten. cbn. lia.
Defined.

(** ** Submitting from the generation form *)



(** X14: a complete event that carries an output path puts an entry for the
    job at the head of the history, with that path and the parameters of
    the submission; loading that entry later, from whatever state, shows
    the same path with status completed and hands back those parameters. *)
Theorem completed_job_can_be_reloaded
    (job : JValue) (params : GenerationParams.t) (update jobId out : JValue)
    (s later : VideoGenerator.State) :
  get update "type" = Normal (JStr "complete") →
  get update "output_path" = Normal out →
  truthy out = true →
  get job "job_id" = Normal jobId →
  ∃ item rest,
    VideoGenerator.history (exec (VideoGenerator.onMessage job params update) s)
    = item :: rest
    ∧ item = GenerationHistory.mk jobId params out
    ∧ rest = take 9 (VideoGenerator.history s)
    ∧ let r := VideoGenerator.loadFromHistory item later in
      r.2 = Normal params
      ∧ VideoGenerator.videoPath r.1 = out
      ∧ VideoGenerator.status r.1 = VideoGenerator.Status.completed
      ∧ VideoGenerator.history r.1 = VideoGenerator.history later.
Proof.
  intros Htype Hout Htruthy Hid.
  exists (GenerationHistory.mk jobId params out), (take 9 (VideoGenerator.history s)).
  split; [|split; [reflexivity|split; [reflexivity|]]].
  - unfold VideoGenerator.onMessage. run_eff. rewrite Htype. cbn.
    rewrite Hout. cbn. now rewrite Hid.
  - cbv zeta. unfold VideoGenerator.loadFromHistory. run_eff.
    rewrite Htruthy. cbn. now repeat split.
Qed.

Lemma completed_job_can_be_reloaded_witness :
  ∃ item rest,
    VideoGenerator.history
      (exec (VideoGenerator.onMessage (JObj [("job_id", JStr "job-1")])
               (GenerationParams.mk "a red kite" 512 512 33 42 24
                  GenerationParams.distilled)
               (JObj [("type", JStr "complete"); ("output_path", JStr "out.mp4")]))
            VideoGenerator.initial)
    = item :: rest
    ∧ item = GenerationHistory.mk (JStr "job-1")
               (GenerationParams.mk "a red kite" 512 512 33 42 24
                  GenerationParams.distilled) (JStr "out.mp4")
    ∧ rest = take 9 (VideoGenerator.history VideoGenerator.initial)
    ∧ let r := VideoGenerator.loadFromHistory item VideoGenerator.initial in
      r.2 = Normal (GenerationParams.mk "a red kite" 512 512 33 42 24
                      GenerationParams.distilled)
      ∧ VideoGenerator.videoPath r.1 = JStr "out.mp4"
      ∧ VideoGenerator.status r.1 = VideoGenerator.Status.completed
      ∧ VideoGenerator.history r.1 = VideoGenerator.history VideoGenerator.initial.
Proof.
  apply (completed_job_can_be_reloaded (JObj [("job_id", JStr "job-1")])
           (GenerationParams.mk "a red kite" 512 512 33 42 24 GenerationParams.distilled)
           (JObj [("type", JStr "complete"); ("output_path", JStr "out.mp4")])
           (JStr "job-1") (JStr "out.mp4") VideoGenerator.initial VideoGenerator.initial);
    reflexivity.
Defined.

(** ** Starting a training job *)



(** X29: handleStopTraining always returns. With no job id held it sends
    nothing and changes nothing. With a job id held, a request that the
    server accepts sets the status to stopped, whatever it was, and leaves
    the other hooks; a second accepted request then changes nothing. A
    request that fails is caught: the status and the job id stay, and the
    error's message becomes the error text. *)
Theorem handleStopTraining_outcomes
    (fetched : Completion Response) (s : TrainingForm.State) :
  let r := TrainingForm.handleStopTraining fetched s in
  r.2 = Normal tt
  ∧ (truthy (TrainingForm.jobId s) = false → r.1 = s)
  ∧ (truthy (TrainingForm.jobId s) = true →
     match Api.stopTraining fetched with
     | Normal _ =>
         r.1 = TrainingForm.mkState TrainingJob.stopped (TrainingForm.currentStep s)
                 (TrainingForm.totalSteps s) (TrainingForm.currentLoss s)
                 (TrainingForm.eta s) (TrainingForm.error s) (TrainingForm.jobId s)
         ∧ ∀ second, TrainingForm.accepted second →
             TrainingForm.handleStopTraining second r.1 = (r.1, Normal tt)
     | Throw e =>
         r.1 = TrainingForm.mkState (TrainingForm.status s) (TrainingForm.currentStep s)
                 (TrainingForm.totalSteps s) (TrainingForm.currentLoss s)
                 (TrainingForm.eta s) (MessageOf e) (TrainingForm.jobId s)
     end).
Proof.
  cbv zeta. destruct (truthy (TrainingForm.jobId s)) eqn:Hid.
  - destruct (Api.stopTraining fetched) as [[]|e] eqn:Hstop.
    + rewrite (handleStopTraining_accepted fetched s Hstop Hid). cbn.
      split; [reflexivity|]. split; [discriminate|]. intros _.
      split; [reflexivity|]. intros second Hsecond.
      now rewrite handleStopTraining_accepted by (assumption || exact Hid).
    + unfold TrainingForm.handleStopTraining. rewrite Hid. run_eff.
      rewrite Hstop. cbn. split; [reflexivity|]. split; [discriminate|].
      intros _. reflexivity.
  - rewrite (handleStopTraining_no_job fetched s Hid). cbn.
    split; [reflexivity|]. split; [reflexivity|discriminate].
Qed.

Lemma handleStopTraining_outcomes_witness :
  (TrainingForm.handleStopTraining
     (Normal (mkResponse false (Normal (JObj [("detail", JStr "Job not found")]))))
     (TrainingForm.mkState TrainingJob.training (JNum 120) (JNum 3000) (JNum 2)
        JNull (Value JNull) (JStr "train-1"))).1
  = TrainingForm.mkState TrainingJob.training (JNum 120) (JNum 3000) (JNum 2)
      JNull (MessageOf (Error "Job not found")) (JStr "train-1").
Proof.
  exact (proj2 (proj2 (handleStopTraining_outcomes
           (Normal (mkResponse false (Normal (JObj [("detail", JStr "Job not found")]))))
           (TrainingForm.mkState TrainingJob.training (JNum 120) (JNum 3000) (JNum 2)
              JNull (Value JNull) (JStr "train-1")))) eq_refl).
Defined.

(** X30: as it is mounted the training form stays as it is, whatever is
    clicked and whatever arrives: its status starts as pending, so the Stop
    button is rendered and not the Start button; Stop sends nothing
    without a job id, and no socket is open to bring an event. *)
Theorem mounted_form_is_inert
    (JSON_parse : string → Completion JValue) (actions : list TrainingForm.Action) :
  foldl (TrainingForm.act JSON_parse) TrainingForm.mounted actions
  = TrainingForm.mounted.
Proof.
  induction actions as [|a actions IH]; [reflexivity|].
  cbn [foldl].
  replace (TrainingForm.act JSON_parse TrainingForm.mounted a)
    with TrainingForm.mounted; [exact IH|].
  destruct a; reflexivity.
Qed.

(** ** The LoRA target modules and the training progress bar *)

Lemma existsb_eqb_In (m : string) (l : list string) :
  existsb (String.eqb m) l = true ↔ In m l.
Proof.
  rewrite existsb_exists. split.
  - intros (x & Hin & Heq). apply String.eqb_eq in Heq. now subst.
  - intros Hin. exists m. split; [exact Hin|apply String.eqb_refl].
Qed.

Lemma filter_other_absent (m : string) (l : list string) :
  ¬ In m l → List.filter (fun x => negb (String.eqb x m)) l = l.
Proof.
  induction l as [|x l IH]; intros Hnot; [reflexivity|].
  cbn [List.filter]. destruct (String.eqb_spec x m) as [->|Hne].
  - exfalso. apply Hnot. now left.
  - cbn [negb]. f_equal. apply IH. intros Hin. apply Hnot. now right.
Qed.

(** X16: toggling a LoRA target module flips whether it is in the list and
    leaves every other module's presence as it was; toggling a module that
    was absent twice gives back the same list. *)
Theorem toggleLoraModule_flips (module : string) (current : list string) :
  (In module (TrainingForm.toggleLoraModule module current) ↔ ¬ In module current)
  ∧ (∀ other, other ≠ module →
       (In other (TrainingForm.toggleLoraModule module current) ↔ In other current))
  ∧ (¬ In module current →
     TrainingForm.toggleLoraModule module
       (TrainingForm.toggleLoraModule module current) = current).
Proof.
  unfold TrainingForm.toggleLoraModule.
  destruct (existsb (String.eqb module) current) eqn:Hex.
  - apply existsb_eqb_In in Hex. split; [|split].
    + rewrite filter_In. split.
      * intros [_ Hne]. rewrite String.eqb_refl in Hne. discriminate.
      * intros Hnot. contradiction.
    + intros other Hne. rewrite filter_In. split; [now intros [H _]|].
      intros Hin. split; [exact Hin|].
      destruct (String.eqb_spec other module); [contradiction|reflexivity].
    + intros Hnot. contradiction.
  - assert (Hnot : ¬ In module current).
    { intros Hin. apply existsb_eqb_In in Hin. congruence. }
    split; [|split].
    + split; [intros _; exact Hnot|].
      intros _. apply in_or_app. right. now left.
    + intros other Hne. rewrite in_app_iff. split; [|now left].
      intros [Hin|[Heq|[]]]; [exact Hin|congruence].
    + intros _.
      assert (Hin : existsb (String.eqb module) (current ++ [module]) = true).
      { apply existsb_eqb_In. apply in_or_app. right. now left. }
      rewrite Hin. rewrite List.filter_app. cbn [List.filter].
      rewrite String.eqb_refl. cbn [negb]. rewrite app_nil_r.
      now apply filter_other_absent.
Qed.

Lemma toggleLoraModule_flips_witness :
  TrainingForm.toggleLoraModule "ff.net.2"
    (TrainingForm.toggleLoraModule "ff.net.2" ["to_k"; "to_q"; "to_v"; "to_out.0"])
  = ["to_k"; "to_q"; "to_v"; "to_out.0"].
Proof.
  apply (proj2 (proj2 (toggleLoraModule_flips "ff.net.2"
                         ["to_k"; "to_q"; "to_v"; "to_out.0"]))).
  cbn. intros [H|[H|[H|[H|[]]]]]; discriminate H.
Defined.

Lemma round_finite (x : Q) :
  (0 <= x)%Q → (x <= 100)%Q → Double.round x = Double.Finite (Double.fl x).
Proof.
  intros Hlo Hhi. unfold Double.round, Double.overflows.
  destruct (Qle_bool (Double.pow2 1024 - Double.pow2 970) (Qabs x)) eqn:Hover;
    [|reflexivity].
  exfalso. apply Qle_bool_iff in Hover. rewrite Qabs_pos in Hover by exact Hlo.
  assert (Hbig : (100 < Double.pow2 1024 - Double.pow2 970)%Q) by reflexivity.
  apply (Qlt_irrefl 100). eapply Qlt_le_trans; [exact Hbig|].
  eapply Qle_trans; eauto.
Qed.

(** X17: the training progress percentage is 0 when the total number of
    steps is not positive (nothing is divided by zero), and is a finite
    number within 0 and 100 when the current step lies within 0 and a
    positive total, the quotient and the product each being rounded to a
    double. *)
Theorem training_progress_bounds (currentStep totalSteps : Q) :
  ((totalSteps <= 0)%Q →
     TrainingForm.progress currentStep totalSteps = Double.Finite 0)
  ∧ ((0 < totalSteps)%Q → (0 <= currentStep)%Q → (currentStep <= totalSteps)%Q →
     ∃ percent,
       TrainingForm.progress currentStep totalSteps = Double.Finite percent
       ∧ (0 <= percent)%Q ∧ (percent <= 100)%Q).
Proof.
  unfold TrainingForm.progress. split.
  - intros Hle. destruct (Qlt_le_dec 0 totalSteps) as [Hlt|_]; [|reflexivity].
    exfalso. eapply Qlt_not_le; eauto.
  - intros Hpos Hlo Hhi. destruct (Qlt_le_dec 0 totalSteps) as [_|Hle];
      [|exfalso; eapply Qlt_not_le; eauto].
    assert (Hq0 : (0 <= currentStep / totalSteps)%Q).
    { apply Qle_shift_div_l; [exact Hpos|]. now rewrite Qmult_0_l. }
    assert (Hq1 : (currentStep / totalSteps <= 1)%Q).
    { apply Qle_shift_div_r; [exact Hpos|]. now rewrite Qmult_1_l. }
    pose proof (fl_nonneg _ Hq0) as Hy0. pose proof (fl_le_one _ Hq0 Hq1) as Hy1.
    assert (Hz0 : (0 <= Double.fl (currentStep / totalSteps) * 100)%Q).
    { apply Qmult_le_0_compat; [exact Hy0|discriminate]. }
    assert (Hz1 : (Double.fl (currentStep / totalSteps) * 100 <= 100)%Q).
    { apply Qle_trans with (1 * 100)%Q; [|discriminate].
      apply Qmult_le_compat_r; [exact Hy1|discriminate]. }
    rewrite round_finite by (assumption || (eapply Qle_trans; [exact Hq1|discriminate])).
    rewrite round_finite by assumption.
    eexists. split; [reflexivity|].
    split; [now apply fl_nonneg|now apply fl_le_hundred].
Qed.

Lemma training_progress_bounds_witness :
  ∃ percent,
    TrainingForm.progress 29 100 = Double.Finite percent
    ∧ (0 <= percent)%Q ∧ (percent <= 100)%Q.
Proof.
  apply (proj2 (training_progress_bounds 29 100)); [reflexivity|discriminate|discriminate].
Defined.

(** ** What socket events do to the training form *)

(** X18: the training socket's handlers never throw and never touch the job
    id, the total steps or the open sockets; an event leaves the status as
    it was or sets training, completed or error, and a progress event sets
    training whatever the status was, stopped and completed included. *)
Theorem training_events_effect
    (JSON_parse : string → Completion JValue) (ev : WsEvent) (w : TrainingForm.World) :
  let r := TrainingForm.dispatch JSON_parse ev w in
  let before := TrainingForm.form w in
  let after := TrainingForm.form r.1 in
  r.2 = Normal tt
  ∧ TrainingForm.sockets r.1 = TrainingForm.sockets w
  ∧ TrainingForm.jobId after = TrainingForm.jobId before
  ∧ TrainingForm.totalSteps after = TrainingForm.totalSteps before
  ∧ (TrainingForm.status after = TrainingForm.status before
     ∨ TrainingForm.status after = TrainingJob.training
     ∨ TrainingForm.status after = TrainingJob.completed
     ∨ TrainingForm.status after = TrainingJob.error)
  ∧ (∀ data update,
       ev = WsMessage data →
       JSON_parse data = Normal update →
       get update "type" = Normal (JStr "progress") →
       TrainingForm.status after = TrainingJob.training).
Proof.
  cbv zeta. destruct ev as [data| |];
    [|cbn; repeat split; auto; discriminate|cbn; repeat split; auto; discriminate].
  unfold TrainingForm.dispatch, Socket.dispatch, Socket.onmessage,
    TrainingForm.on_form.
  run_eff.
  destruct (JSON_parse data) as [update|e] eqn:Hparse; cbn;
    [|repeat split; auto; intros ? ? [= <-]; congruence].
  unfold TrainingForm.onMessage. run_eff.
  destruct (get update "type") as [type|e] eqn:Htype; cbn;
    [|repeat split; auto; intros ? ? [= <-]; congruence].
  destruct (is_str type "progress") eqn:Hp; cbn.
  { destruct (get update "step"); cbn; [|repeat split; auto].
    destruct (get update "loss"); cbn; [|repeat split; auto].
    destruct (get update "eta"); cbn; repeat split; auto. }
  assert (Hnot : ∀ d u, WsMessage data = WsMessage d → JSON_parse d = Normal u →
                        get u "type" = Normal (JStr "progress") → False).
  { intros d u [= <-] Hu Ht. rewrite Hparse in Hu. injection Hu as <-.
    rewrite Htype in Ht. injection Ht as ->. discriminate Hp. }
  destruct (is_str type "complete"); cbn.
  { repeat split; auto. intros d u H1 H2 H3. destruct (Hnot d u H1 H2 H3). }
  destruct (is_str type "error"); cbn.
  { destruct (get update "error"); cbn; repeat split; auto;
      intros d u H1 H2 H3; destruct (Hnot d u H1 H2 H3). }
  repeat split; auto. intros d u H1 H2 H3. destruct (Hnot d u H1 H2 H3).
Qed.

Lemma training_events_effect_witness :
  TrainingForm.status
    (TrainingForm.form
       (TrainingForm.dispatch
          (fun _ => Normal (JObj [("type", JStr "progress"); ("step", JNum 120)]))
          (WsMessage "frame-9")
          (TrainingForm.mkWorld
             (TrainingForm.mkState TrainingJob.stopped (JNum 119) (JNum 3000)
                JNull JNull (Value JNull) (JStr "train-1")) [JStr "train-1"] 0)).1)
  = TrainingJob.training.
Proof.
  apply (proj2 (proj2 (proj2 (proj2 (proj2 (training_events_effect
           (fun _ => Normal (JObj [("type", JStr "progress"); ("step", JNum 120)]))
           (WsMessage "frame-9")
           (TrainingForm.mkWorld
              (TrainingForm.mkState TrainingJob.stopped (JNum 119) (JNum 3000)
                 JNull JNull (Value JNull) (JStr "train-1")) [JStr "train-1"] 0))))))
         "frame-9" (JObj [("type", JStr "progress"); ("step", JNum 120)]));
    reflexivity.
Defined.

(** ** Moving through the gallery *)

Lemma findIndex_range (id : string) (l : list GalleryVideo.t) :
  -1 ≤ GalleryGrid.findIndex id l < Z.of_nat (length l).
Proof.
  induction l as [|v l IH]; cbn [GalleryGrid.findIndex length]; [lia|].
  destruct (String.eqb (GalleryVideo.id v) id); [lia|].
  destruct (GalleryGrid.findIndex id l <? 0) eqn:Hneg; lia.
Qed.

Lemma at_index_in_range (l : list GalleryVideo.t) (z : Z) :
  0 ≤ z < Z.of_nat (length l) →
  ∃ v, GalleryGrid.at_index l (Some z) = Some v
       ∧ l !! Z.to_nat z = Some v ∧ In v l.
Proof.
  intros Hz. unfold GalleryGrid.at_index.
  destruct (z <? 0) eqn:Hneg; [lia|].
  destruct (lookup_lt_is_Some_2 l (Z.to_nat z) ltac:(lia)) as [v Hv].
  exists v. repeat split; auto.
  apply list_elem_of_In. eapply list_elem_of_lookup_2; eauto.
Qed.

Lemma new_index_in_range (i n : Z) :
  0 < n → -1 ≤ i < n →
  (∃ z, GalleryGrid.js_rem (i - 1 + n) n = Some z ∧ 0 ≤ z < n)
  ∧ (∃ z, GalleryGrid.js_rem (i + 1) n = Some z ∧ 0 ≤ z < n).
Proof.
  intros Hn Hi. unfold GalleryGrid.js_rem.
  destruct (n =? 0) eqn:Hz; [lia|]. split.
  - destruct (Z.eq_dec (i - 1 + n) (-1)) as [Heq|Hne].
    + assert (n = 1) by lia. subst n. rewrite Z.rem_1_r. exists 0. split; [reflexivity|lia].
    + rewrite Z.rem_mod_nonneg by lia. eexists. split; [reflexivity|].
      apply Z.mod_pos_bound. lia.
  - rewrite Z.rem_mod_nonneg by lia. eexists. split; [reflexivity|].
    apply Z.mod_pos_bound. lia.
Qed.

(** X19: moving to the previous or the next entry of a gallery that is not
    empty always selects an entry of the list shown, also when the entry
    selected before is no longer in it; in an empty list it selects
    nothing, and with nothing selected it does nothing. *)
Theorem navigateVideo_stays_in_list
    (direction : GalleryGrid.Direction) (filteredVideos : list GalleryVideo.t) :
  GalleryGrid.navigateVideo direction filteredVideos None = None
  ∧ (∀ selected,
       filteredVideos = [] →
       GalleryGrid.navigateVideo direction filteredVideos (Some selected) = None)
  ∧ (∀ selected,
       filteredVideos ≠ [] →
       ∃ v, GalleryGrid.navigateVideo direction filteredVideos (Some selected) = Some v
            ∧ In v filteredVideos).
Proof.
  split; [reflexivity|]. split.
  - intros selected ->. now destruct direction.
  - intros selected Hne. unfold GalleryGrid.navigateVideo.
    pose proof (findIndex_range (GalleryVideo.id selected) filteredVideos) as Hi.
    assert (Hn : 0 < Z.of_nat (length filteredVideos)).
    { destruct filteredVideos; [congruence|cbn [length]; lia]. }
    destruct (new_index_in_range _ _ Hn Hi) as [(z1 & H1 & Hz1) (z2 & H2 & Hz2)].
    destruct direction.
    + rewrite H1. destruct (at_index_in_range filteredVideos z1 Hz1) as (v & Hv & _ & Hin).
      eauto.
    + rewrite H2. destruct (at_index_in_range filteredVideos z2 Hz2) as (v & Hv & _ & Hin).
      eauto.
Qed.

Lemma navigateVideo_stays_in_list_witness :
  ∃ v, GalleryGrid.navigateVideo GalleryGrid.prev
         [GalleryVideo.mk "a" "a.mp4" "/out/a.mp4" None "2026-01-01"]
         (Some (GalleryVideo.mk "gone" "gone.mp4" "/out/gone.mp4" None "2026-01-02"))
       = Some v
       ∧ In v [GalleryVideo.mk "a" "a.mp4" "/out/a.mp4" None "2026-01-01"].
Proof.
  apply (proj2 (proj2 (navigateVideo_stays_in_list GalleryGrid.prev
                         [GalleryVideo.mk "a" "a.mp4" "/out/a.mp4" None "2026-01-01"]))).
  discriminate.
Defined.

Lemma findIndex_lookup (l : list GalleryVideo.t) : ∀ (i : nat) (v : GalleryVideo.t),
  NoDup (map GalleryVideo.id l) →
  l !! i = Some v →
  GalleryGrid.findIndex (GalleryVideo.id v) l = Z.of_nat i.
Proof.
  induction l as [|x l IH]; intros i v Hnd Hi; [discriminate|].
  cbn [map] in Hnd. apply NoDup_cons in Hnd as [Hx Hnd].
  cbn [GalleryGrid.findIndex]. destruct i as [|i].
  - injection Hi as ->. now rewrite String.eqb_refl.
  - cbn in Hi. destruct (String.eqb_spec (GalleryVideo.id x) (GalleryVideo.id v)) as [Heq|_].
    + exfalso. apply Hx. rewrite Heq. apply list_elem_of_In.
      apply in_map. apply list_elem_of_In. eapply list_elem_of_lookup_2; eauto.
    + rewrite (IH i v Hnd Hi).
      destruct (Z.of_nat i <? 0) eqn:Hneg; lia.
Qed.

(** X20: in a gallery whose entries have distinct ids, with an entry of the
    list selected, next selects the entry after it (the first after the
    last), previous the entry before it (the last before the first), and
    going next and then previous comes back to the entry selected. *)
Theorem navigateVideo_wraps_and_returns
    (filteredVideos : list GalleryVideo.t) (i : nat) (selected : GalleryVideo.t) :
  NoDup (map GalleryVideo.id filteredVideos) →
  filteredVideos !! i = Some selected →
  let n := length filteredVideos in
  GalleryGrid.navigateVideo GalleryGrid.next filteredVideos (Some selected)
  = filteredVideos !! ((i + 1) mod n)%nat
  ∧ GalleryGrid.navigateVideo GalleryGrid.prev filteredVideos (Some selected)
    = filteredVideos !! ((i + n - 1) mod n)%nat
  ∧ GalleryGrid.navigateVideo GalleryGrid.prev filteredVideos
      (GalleryGrid.navigateVideo GalleryGrid.next filteredVideos (Some selected))
    = Some selected.
Proof.
  intros Hnd Hi n.
  assert (Hlt : (i < n)%nat) by (eapply lookup_lt_Some; eauto).
  assert (Hstep : ∀ (j : nat) (v : GalleryVideo.t),
            filteredVideos !! j = Some v →
            GalleryGrid.navigateVideo GalleryGrid.next filteredVideos (Some v)
            = filteredVideos !! ((j + 1) mod n)%nat
            ∧ GalleryGrid.navigateVideo GalleryGrid.prev filteredVideos (Some v)
              = filteredVideos !! ((j + n - 1) mod n)%nat).
  { intros j v Hj.
    assert (Hjn : (j < n)%nat) by (eapply lookup_lt_Some; eauto).
    unfold GalleryGrid.navigateVideo, GalleryGrid.js_rem, GalleryGrid.at_index.
    rewrite (findIndex_lookup filteredVideos j v Hnd Hj). fold n.
    destruct (Z.of_nat n =? 0) eqn:Hz; [lia|].
    rewrite !Z.rem_mod_nonneg by lia.
    assert (H1 : (Z.of_nat j + 1) mod Z.of_nat n = Z.of_nat ((j + 1) mod n)).
    { rewrite Nat2Z.inj_mod. f_equal. lia. }
    assert (H2 : (Z.of_nat j - 1 + Z.of_nat n) mod Z.of_nat n
                 = Z.of_nat ((j + n - 1) mod n)).
    { rewrite Nat2Z.inj_mod. f_equal. lia. }
    rewrite H1, H2.
    destruct (Z.of_nat ((j + 1) mod n) <? 0) eqn:Hn1; [lia|].
    destruct (Z.of_nat ((j + n - 1) mod n) <? 0) eqn:Hn2; [lia|].
    now rewrite !Nat2Z.id. }
  destruct (Hstep i selected Hi) as [Hnext Hprev].
  split; [exact Hnext|]. split; [exact Hprev|].
  rewrite Hnext.
  assert (Hj : ((i + 1) mod n < n)%nat) by (apply Nat.mod_upper_bound; lia).
  destruct (lookup_lt_is_Some_2 filteredVideos _ Hj) as [v Hv].
  rewrite Hv. destruct (Hstep _ v Hv) as [_ Hback]. rewrite Hback, <- Hi. f_equal.
  destruct (Nat.eq_dec (i + 1)%nat n) as [Heq|Hne].
  - rewrite Heq, Nat.Div0.mod_same. cbn [Nat.add].
    rewrite Nat.mod_small by lia. lia.
  - rewrite (Nat.mod_small (i + 1)%nat) by lia.
    replace (i + 1 + n - 1)%nat with (i + 1 * n)%nat by lia.
    rewrite Nat.Div0.mod_add. apply Nat.mod_small. lia.
Qed.

Lemma navigateVideo_wraps_and_returns_witness :
  GalleryGrid.navigateVideo GalleryGrid.next
    [GalleryVideo.mk "a" "a.mp4" "/out/a.mp4" None "2026-01-01";
     GalleryVideo.mk "b" "b.mp4" "/out/b.mp4" (Some "a red kite") "2026-01-02"]
    (Some (GalleryVideo.mk "b" "b.mp4" "/out/b.mp4" (Some "a red kite") "2026-01-02"))
  = Some (GalleryVideo.mk "a" "a.mp4" "/out/a.mp4" None "2026-01-01").
Proof.
  apply (proj1 (navigateVideo_wraps_and_returns
           [GalleryVideo.mk "a" "a.mp4" "/out/a.mp4" None "2026-01-01";
            GalleryVideo.mk "b" "b.mp4" "/out/b.mp4" (Some "a red kite") "2026-01-02"]
           1%nat
           (GalleryVideo.mk "b" "b.mp4" "/out/b.mp4" (Some "a red kite") "2026-01-02")
           ltac:(repeat constructor; cbn; intros H;
                 repeat (apply elem_of_cons in H as [H|H]; [discriminate H|]);
                 inversion H)
           eq_refl)).
Defined.

(** ** Deleting from the gallery *)

(** X21: handleDelete always returns. Declined, it changes nothing. Confirmed
    and accepted by the server, it drops exactly the entries with the id
    of the video, keeping the others in their order, clears the selection
    when the selected entry had that id and leaves it otherwise. Confirmed
    and failed, it keeps the list and the selection and shows the error's
    message. Once confirmed, the deleting mark is cleared at the end either
    way. *)
Theorem handleDelete_outcomes
    (confirmed : bool) (fetched : Completion Response) (video : GalleryVideo.t)
    (s : GalleryGrid.State) :
  let r := GalleryGrid.handleDelete confirmed fetched video s in
  r.2 = Normal tt
  ∧ (confirmed = false → r.1 = s)
  ∧ (confirmed = true →
     GalleryGrid.deleting r.1 = None
     ∧ match Api.deleteVideo fetched with
       | Normal _ =>
           GalleryGrid.videos r.1
           = List.filter (fun v => negb (String.eqb (GalleryVideo.id v)
                                                    (GalleryVideo.id video)))
                         (GalleryGrid.videos s)
           ∧ (∀ v, In v (GalleryGrid.videos r.1)
                   ↔ In v (GalleryGrid.videos s)
                     ∧ GalleryVideo.id v ≠ GalleryVideo.id video)
           ∧ GalleryGrid.selectedVideo r.1
             = (if GalleryGrid.is_selected (GalleryGrid.selectedVideo s) video
                then None else GalleryGrid.selectedVideo s)
           ∧ GalleryGrid.alerts r.1 = GalleryGrid.alerts s
       | Throw e =>
           GalleryGrid.videos r.1 = GalleryGrid.videos s
           ∧ GalleryGrid.selectedVideo r.1 = GalleryGrid.selectedVideo s
           ∧ GalleryGrid.alerts r.1 = (GalleryGrid.alerts s ++ [MessageOf e])%list
       end).
Proof.
  cbv zeta. unfold GalleryGrid.handleDelete. destruct confirmed; cbn [negb].
  - run_eff. destruct (Api.deleteVideo fetched) as [[]|e]; cbn.
    + destruct (GalleryGrid.is_selected (GalleryGrid.selectedVideo s) video); cbn;
        (split; [reflexivity|]); (split; [discriminate|]); intros _;
        (split; [reflexivity|]); (split; [reflexivity|]);
        (split; [|split; reflexivity]);
        intros v; rewrite filter_In;
        (split; intros [Hin Hne]; (split; [exact Hin|]));
        destruct (String.eqb_spec (GalleryVideo.id v) (GalleryVideo.id video));
        (congruence || discriminate || reflexivity).
    + split; [reflexivity|]. split; [discriminate|]. intros _. now repeat split.
  - split; [reflexivity|]. split; [reflexivity|discriminate].
Qed.

Lemma handleDelete_outcomes_witness :
  (GalleryGrid.handleDelete false (Throw TypeError)
     (GalleryVideo.mk "a" "a.mp4" "/out/a.mp4" None "2026-01-01")
     (GalleryGrid.mkState [GalleryVideo.mk "a" "a.mp4" "/out/a.mp4" None "2026-01-01"]
        None None [])).1
  = GalleryGrid.mkState [GalleryVideo.mk "a" "a.mp4" "/out/a.mp4" None "2026-01-01"]
      None None [].
Proof.
  apply (proj1 (proj2 (handleDelete_outcomes false (Throw TypeError)
           (GalleryVideo.mk "a" "a.mp4" "/out/a.mp4" None "2026-01-01")
           (GalleryGrid.mkState [GalleryVideo.mk "a" "a.mp4" "/out/a.mp4" None "2026-01-01"]
              None None [])))).
  reflexivity.
Defined.

(** ** Stored parameters *)

Lemma cleaned_lookup (raw : StoredGenerator.Obj) (k : string) (allowed : list string) :
  ∀ acc : StoredGenerator.Obj,
    foldl (fun (cleaned : StoredGenerator.Obj) key =>
             match raw !! key with
             | Some v => <[key := v]> cleaned
             | None => cleaned
             end) acc allowed !! k
    = if decide (k ∈ allowed)
      then match raw !! k with Some v => Some v | None => acc !! k end
      else acc !! k.
Proof.
  induction allowed as [|key allowed IH]; intros acc; cbn [foldl].
  - rewrite decide_False by apply not_elem_of_nil. reflexivity.
  - rewrite IH. destruct (decide (k ∈ allowed)) as [Hin|Hnot].
    + rewrite decide_True by (now apply elem_of_cons; right).
      destruct (raw !! k) eqn:Hk; [reflexivity|].
      destruct (raw !! key) eqn:Hkey; [|reflexivity].
      rewrite lookup_insert_ne; [reflexivity|congruence].
    + destruct (decide (k = key)) as [->|Hne].
      * rewrite decide_True by (apply elem_of_cons; now left).
        destruct (raw !! key); [apply lookup_insert_eq|reflexivity].
      * rewrite decide_False by (rewrite elem_of_cons; tauto).
        destruct (raw !! key); [now rewrite lookup_insert_ne|reflexivity].
Qed.

Lemma defaults_lookup (defaults : list (string * JValue)) (k : string) :
  (list_to_map defaults : StoredGenerator.Obj) !! k
  = if decide (k ∈ map fst defaults) then Some (lookup_field k defaults) else None.
Proof.
  induction defaults as [|[key v] defaults IH].
  - rewrite list_to_map_nil, lookup_empty.
    now rewrite decide_False by apply not_elem_of_nil.
  - rewrite list_to_map_cons. cbn [map fst lookup_field].
    destruct (String.eqb_spec k key) as [->|Hne].
    + rewrite lookup_insert_eq. now rewrite decide_True by (apply elem_of_cons; now left).
    + rewrite lookup_insert_ne by congruence. rewrite IH.
      destruct (decide (k ∈ map fst defaults)) as [Hin|Hnot].
      * now rewrite decide_True by (apply elem_of_cons; now right).
      * now rewrite decide_False by (rewrite elem_of_cons; tauto).
Qed.

Lemma sanitize_with_lookup (defaults : list (string * JValue))
    (raw : StoredGenerator.Obj) (k : string) :
  StoredGenerator.sanitize_with defaults raw !! k
  = if decide (k ∈ map fst defaults)
    then Some (match raw !! k with
               | Some v => v
               | None => lookup_field k defaults
               end)
    else None.
Proof.
  unfold StoredGenerator.sanitize_with.
  rewrite lookup_union, cleaned_lookup, defaults_lookup, lookup_empty.
  destruct (decide (k ∈ map fst defaults)); [|reflexivity].
  now destruct (raw !! k).
Qed.

(** X22: sanitizeParams keeps exactly the keys of the default parameters: a
    key that the defaults do not have is dropped, a key they have takes the
    stored value when the stored object has the key and the default value
    otherwise. *)
Theorem sanitizeParams_keeps_known_keys (raw : StoredGenerator.Obj) (k : string) :
  (k ∉ map fst StoredGenerator.defaultParams →
     StoredGenerator.sanitizeParams raw !! k = None)
  ∧ (k ∈ map fst StoredGenerator.defaultParams →
     (∀ v, raw !! k = Some v → StoredGenerator.sanitizeParams raw !! k = Some v)
     ∧ (raw !! k = None →
        StoredGenerator.sanitizeParams raw !! k
        = Some (lookup_field k StoredGenerator.defaultParams))).
Proof.
  unfold StoredGenerator.sanitizeParams. rewrite sanitize_with_lookup. split.
  - intros Hnot. now rewrite decide_False.
  - intros Hin. rewrite decide_True by exact Hin. split.
    + now intros v ->.
    + now intros ->.
Qed.

Lemma sanitizeParams_keeps_known_keys_witness :
  StoredGenerator.sanitizeParams
    (<["num_frames" := JNum 65]> (<["theme" := JStr "dark"]> ∅)) !! "theme"
  = None.
Proof.
  apply (proj1 (sanitizeParams_keeps_known_keys
                  (<["num_frames" := JNum 65]> (<["theme" := JStr "dark"]> ∅)) "theme")).
  vm_compute. intros H.
  repeat (apply elem_of_cons in H as [H|H]; [discriminate H|]).
  inversion H.
Defined.

(** X23: sanitizing is idempotent, and sanitizing the empty object gives the
    default parameters. *)
Theorem sanitizeParams_idempotent (raw : StoredGenerator.Obj) :
  StoredGenerator.sanitizeParams (StoredGenerator.sanitizeParams raw)
  = StoredGenerator.sanitizeParams raw
  ∧ StoredGenerator.sanitizeParams ∅ = list_to_map StoredGenerator.defaultParams.
Proof.
  unfold StoredGenerator.sanitizeParams. split; apply map_eq; intros k.
  - rewrite !sanitize_with_lookup.
    destruct (decide (k ∈ map fst StoredGenerator.defaultParams)); reflexivity.
  - rewrite sanitize_with_lookup, defaults_lookup, lookup_empty.
    destruct (decide (k ∈ map fst StoredGenerator.defaultParams)); reflexivity.
Qed.

(** ** Resuming the last job after a reload *)

Lemma get_other_key (v a : JValue) (k k' : string) :
  get v k = Normal a → ∃ b, get v k' = Normal b.
Proof. destruct v; unfold get; intros H; try discriminate H; eauto. Qed.


Lemma resumeLastJob_refused fetched s :
  StoredGenerator.storage s = StoredGenerator.Refused →
  StoredGenerator.resumeLastJob fetched s = (s, Throw SecurityError).
Proof.
  intros Hstorage. unfold StoredGenerator.resumeLastJob, StoredGenerator.getLastJob.
  run_eff. now rewrite Hstorage.
Qed.

Lemma resumeLastJob_none fetched s :
  StoredGenerator.storage s = StoredGenerator.Available None →
  StoredGenerator.resumeLastJob fetched s = (s, Normal tt).
Proof.
  intros Hstorage. unfold StoredGenerator.resumeLastJob, StoredGenerator.getLastJob.
  run_eff. now rewrite Hstorage.
Qed.

Lemma resumeLastJob_empty fetched s :
  StoredGenerator.storage s = StoredGenerator.Available (Some "") →
  StoredGenerator.resumeLastJob fetched s = (s, Normal tt).
Proof.
  intros Hstorage. unfold StoredGenerator.resumeLastJob, StoredGenerator.getLastJob.
  run_eff. now rewrite Hstorage.
Qed.

(** With a job id read from local storage, what is left of resumeLastJob is
    its try statement. *)
Lemma resumeLastJob_stored fetched s lastJob :
  StoredGenerator.storage s = StoredGenerator.Available (Some lastJob) →
  lastJob ≠ "" →
  StoredGenerator.resumeLastJob fetched s
  = try_catch (StoredGenerator.showJob lastJob fetched)
      (fun _ => StoredGenerator.removeLastJob) s.
Proof.
  intros Hstorage Hne.
  unfold StoredGenerator.resumeLastJob, StoredGenerator.getLastJob.
  unfold mbind at 1. unfold eff_bind. rewrite Hstorage.
  now destruct (String.eqb_spec lastJob "").
Qed.

(** X24: when the browser refuses local storage, resumeLastJob throws the
    storage error at its first step, the read standing before the try:
    nothing is asked and nothing changes. When local storage is available
    it always returns: with no job id stored (or an empty one) it changes
    nothing and asks nothing; with a job id stored, a status request that
    fails, or that yields the JSON null, removes the stored id and leaves
    every hook and the sockets as they were. *)
Theorem resumeLastJob_failure_forgets_job
    (fetched : Completion Response) (s : StoredGenerator.State) :
  let r := StoredGenerator.resumeLastJob fetched s in
  (StoredGenerator.storage s = StoredGenerator.Refused →
     r = (s, Throw SecurityError))
  ∧ (∀ kept, StoredGenerator.storage s = StoredGenerator.Available kept →
             r.2 = Normal tt)
  ∧ (StoredGenerator.storage s = StoredGenerator.Available None
     ∨ StoredGenerator.storage s = StoredGenerator.Available (Some "") → r.1 = s)
  ∧ (∀ lastJob e,
       StoredGenerator.storage s = StoredGenerator.Available (Some lastJob) →
       lastJob ≠ "" →
       Api.getJobStatus fetched ≫= (fun job => get job "status") = Throw e →
       r.1 = StoredGenerator.mkState (StoredGenerator.status s)
               (StoredGenerator.progress s) (StoredGenerator.currentStep s)
               (StoredGenerator.error s) (StoredGenerator.videoPath s)
               (StoredGenerator.Available None) (StoredGenerator.sockets s)).
Proof.
  cbv zeta. split; [apply resumeLastJob_refused|]. split; [|split].
  - intros [lastJob|] Hstorage; [|now rewrite resumeLastJob_none].
    destruct (String.eqb_spec lastJob "") as [->|Hne];
      [now rewrite resumeLastJob_empty|].
    rewrite (resumeLastJob_stored fetched s lastJob Hstorage Hne).
    unfold StoredGenerator.removeLastJob, StoredGenerator.showJob. run_eff.
    destruct (Api.getJobStatus fetched) as [job|e]; cbn; [|now rewrite Hstorage].
    destruct (get job "status") as [st|e]; cbn; [|now rewrite Hstorage].
    destruct (get job "progress"); cbn; [|now rewrite Hstorage].
    destruct (get job "current_step"); cbn; [|now rewrite Hstorage].
    destruct (get job "error"); cbn; [|now rewrite Hstorage].
    destruct (get job "output_path") as [out|]; cbn; [|now rewrite Hstorage].
    destruct (truthy out); cbn;
      destruct (is_str st "processing"); cbn; try reflexivity;
      destruct (is_str st "pending"); reflexivity.
  - intros [Hstorage|Hstorage];
      [now rewrite resumeLastJob_none|now rewrite resumeLastJob_empty].
  - intros lastJob e Hstorage Hne Hthrow.
    rewrite (resumeLastJob_stored fetched s lastJob Hstorage Hne).
    unfold StoredGenerator.removeLastJob, StoredGenerator.showJob. run_eff.
    destruct (Api.getJobStatus fetched) as [job|e']; cbn in *;
      [|now rewrite Hstorage].
    rewrite Hthrow. cbn. now rewrite Hstorage.
Qed.

Lemma resumeLastJob_failure_forgets_job_witness :
  StoredGenerator.resumeLastJob (Normal (mkResponse false (Throw SyntaxError)))
    (StoredGenerator.mkState (JStr "idle") (JNum 0) (JStr "") JUndefined JUndefined
       StoredGenerator.Refused [])
  = (StoredGenerator.mkState (JStr "idle") (JNum 0) (JStr "") JUndefined JUndefined
       StoredGenerator.Refused [], Throw SecurityError)
  ∧ (StoredGenerator.resumeLastJob (Normal (mkResponse false (Throw SyntaxError)))
       (StoredGenerator.mkState (JStr "idle") (JNum 0) (JStr "") JUndefined JUndefined
          (StoredGenerator.Available (Some "job-1")) [])).1
    = StoredGenerator.mkState (JStr "idle") (JNum 0) (JStr "") JUndefined JUndefined
        (StoredGenerator.Available None) [].
Proof.
  split.
  - apply (proj1 (resumeLastJob_failure_forgets_job
             (Normal (mkResponse false (Throw SyntaxError)))
             (StoredGenerator.mkState (JStr "idle") (JNum 0) (JStr "") JUndefined
                JUndefined StoredGenerator.Refused []))).
    reflexivity.
  - apply (proj2 (proj2 (proj2 (resumeLastJob_failure_forgets_job
             (Normal (mkResponse false (Throw SyntaxError)))
             (StoredGenerator.mkState (JStr "idle") (JNum 0) (JStr "") JUndefined
                JUndefined (StoredGenerator.Available (Some "job-1")) []))))
           "job-1" (Error "Failed to fetch job status") eq_refl);
      [discriminate|reflexivity].
Defined.



Lemma stored_dispatch_returns JSON_parse ev s :
  (StoredGenerator.dispatch JSON_parse ev s).2 = Normal tt.
Proof.
  destruct ev as [data| |]; [|reflexivity|reflexivity].
  unfold StoredGenerator.dispatch, Socket.dispatch, Socket.onmessage. run_eff.
  destruct (JSON_parse data) as [update|e]; cbn; [|reflexivity].
  unfold StoredGenerator.onMessage, StoredGenerator.removeLastJob. run_eff.
  destruct (get update "type") as [type|e]; cbn; [|reflexivity].
  destruct (is_str type "progress"); cbn.
  { destruct (get update "progress"); cbn; [|reflexivity].
    destruct (get update "current_step"); cbn; [|reflexivity].
    destruct (get update "output_path") as [out|]; cbn; [|reflexivity].
    destruct (truthy out); reflexivity. }
  destruct (is_str type "complete"); cbn.
  { destruct (get update "output_path"); cbn; [|reflexivity].
    now destruct (StoredGenerator.storage s). }
  destruct (is_str type "error"); cbn; [|reflexivity].
  destruct (get update "error"); cbn; [|reflexivity].
  now destruct (StoredGenerator.storage s).
Qed.

Lemma stored_dispatch_storage JSON_parse data update s :
  JSON_parse data = Normal update →
  StoredGenerator.storage (StoredGenerator.dispatch JSON_parse (WsMessage data) s).1
  = match get update "type", StoredGenerator.storage s with
    | Normal type, StoredGenerator.Available kept =>
        if is_str type "progress" then StoredGenerator.Available kept
        else if is_str type "complete" || is_str type "error"
             then StoredGenerator.Available None
             else StoredGenerator.Available kept
    | _, kept => kept
    end.
Proof.
  intros Hparse.
  unfold StoredGenerator.dispatch, Socket.dispatch, Socket.onmessage. run_eff.
  rewrite Hparse. cbn.
  unfold StoredGenerator.onMessage, StoredGenerator.removeLastJob. run_eff.
  destruct (get update "type") as [type|e] eqn:Htype; cbn;
    [|now destruct (StoredGenerator.storage s)].
  destruct (get_other_key update type "type" "progress" Htype) as [p Hp].
  destruct (get_other_key update type "type" "current_step" Htype) as [step Hstep].
  destruct (get_other_key update type "type" "output_path" Htype) as [out Hout].
  destruct (get_other_key update type "type" "error" Htype) as [err Herr].
  rewrite Hp, Hstep, Hout, Herr.
  destruct (is_str type "progress"); cbn;
    [destruct (truthy out); now destruct (StoredGenerator.storage s)|].
  destruct (is_str type "complete"); cbn;
    [now destruct (StoredGenerator.storage s)|].
  destruct (is_str type "error"); cbn; now destruct (StoredGenerator.storage s).
Qed.

Lemma stored_dispatch_lastJob JSON_parse data update s :
  JSON_parse data = Normal update →
  StoredGenerator.lastJob (StoredGenerator.dispatch JSON_parse (WsMessage data) s).1
  = match get update "type" with
    | Normal type =>
        if is_str type "progress" then StoredGenerator.lastJob s
        else if is_str type "complete" || is_str type "error" then None
        else StoredGenerator.lastJob s
    | Throw _ => StoredGenerator.lastJob s
    end.
Proof.
  intros Hparse. unfold StoredGenerator.lastJob.
  rewrite (stored_dispatch_storage _ _ _ _ Hparse).
  destruct (get update "type") as [type|e];
    destruct (StoredGenerator.storage s); try reflexivity;
    destruct (is_str type "progress"); try reflexivity;
    destruct (is_str type "complete" || is_str type "error"); reflexivity.
Qed.

(** X26: on the socket opened by resuming, a complete or an error event
    removes the stored job id, so that resuming again afterwards (local
    storage being available, as it was when the socket was opened) does
    nothing, while a progress event keeps it; no event of that socket makes
    the handler throw. *)
Theorem terminal_event_ends_resuming
    (JSON_parse : string → Completion JValue) (ev : WsEvent)
    (s : StoredGenerator.State) :
  let r := StoredGenerator.dispatch JSON_parse ev s in
  r.2 = Normal tt
  ∧ (∀ data update,
       ev = WsMessage data → JSON_parse data = Normal update →
       get update "type" = Normal (JStr "complete")
       ∨ get update "type" = Normal (JStr "error") →
       StoredGenerator.lastJob r.1 = None
       ∧ (StoredGenerator.storage s ≠ StoredGenerator.Refused →
          ∀ fetched, StoredGenerator.resumeLastJob fetched r.1 = (r.1, Normal tt)))
  ∧ (∀ data update,
       ev = WsMessage data → JSON_parse data = Normal update →
       get update "type" = Normal (JStr "progress") →
       StoredGenerator.lastJob r.1 = StoredGenerator.lastJob s).
Proof.
  cbv zeta. split; [apply stored_dispatch_returns|]. split.
  - intros data update -> Hparse Htype.
    split.
    { rewrite (stored_dispatch_lastJob _ _ _ _ Hparse).
      destruct Htype as [-> | ->]; reflexivity. }
    intros Havailable fetched.
    assert (Hnone : StoredGenerator.storage
                      (StoredGenerator.dispatch JSON_parse (WsMessage data) s).1
                    = StoredGenerator.Available None).
    { rewrite (stored_dispatch_storage _ _ _ _ Hparse).
      destruct (StoredGenerator.storage s); [contradiction|].
      destruct Htype as [-> | ->]; reflexivity. }
    now apply resumeLastJob_none.
  - intros data update -> Hparse Htype.
    rewrite (stored_dispatch_lastJob _ _ _ _ Hparse), Htype. reflexivity.
Qed.

Lemma terminal_event_ends_resuming_witness :
  StoredGenerator.lastJob
    (StoredGenerator.dispatch
       (fun _ => Normal (JObj [("type", JStr "complete"); ("output_path", JStr "out.mp4")]))
       (WsMessage "frame-3")
       (StoredGenerator.mkState (JStr "processing") (JNum 90) (JStr "Decoding")
          JUndefined JUndefined (StoredGenerator.Available (Some "job-1")) ["job-1"])).1
  = None.
Proof.
  apply (proj1 (proj2 (terminal_event_ends_resuming
           (fun _ => Normal (JObj [("type", JStr "complete");
                                   ("output_path", JStr "out.mp4")]))
           (WsMessage "frame-3")
           (StoredGenerator.mkState (JStr "processing") (JNum 90) (JStr "Decoding")
              JUndefined JUndefined (StoredGenerator.Available (Some "job-1"))
              ["job-1"])))
         "frame-3"
         (JObj [("type", JStr "complete"); ("output_path", JStr "out.mp4")])
         eq_refl eq_refl (or_introl eq_refl)).
Defined.

(** ** When the Generate button comes back *)

Lemma dispatch_keeps_generating JSON_parse job params ev s :
  VideoGenerator.isGenerating s = true →
  VideoGenerator.is_terminal_message JSON_parse ev = false →
  VideoGenerator.isGenerating
    (exec (VideoGenerator.dispatch JSON_parse job params ev) s) = true.
Proof.
  intros Hgen Hnot. destruct ev as [data| |]; [|exact Hgen|exact Hgen].
  unfold VideoGenerator.is_terminal_message in Hnot.
  unfold VideoGenerator.dispatch, Socket.dispatch, Socket.onmessage. run_eff.
  destruct (JSON_parse data) as [update|e]; cbn; [|exact Hgen].
  unfold VideoGenerator.onMessage. run_eff.
  destruct (get update "type") as [type|e]; cbn; [|exact Hgen].
  destruct (is_str type "progress"); cbn.
  { destruct (get update "progress"); cbn; [|reflexivity].
    destruct (get update "current_step"); reflexivity. }
  apply orb_false_elim in Hnot as [Hc He]. rewrite Hc, He. exact Hgen.
Qed.

(** X27: once a job is under way (status pending or processing) the
    Generate button stays disabled through every run of socket events that
    holds no complete and no error message: progress messages, unreadable
    messages, transport errors and closes never bring it back. *)
Theorem only_terminal_messages_reenable_generate
    (JSON_parse : string → Completion JValue) (job : JValue)
    (params : GenerationParams.t) (events : list WsEvent) (s : VideoGenerator.State) :
  VideoGenerator.isGenerating s = true →
  existsb (VideoGenerator.is_terminal_message JSON_parse) events = false →
  let s' := VideoGenerator.run JSON_parse job params events s in
  VideoGenerator.isGenerating s' = true
  ∧ VideoGenerator.canGenerate params s' = false.
Proof.
  intros Hgen Hnone. cbv zeta.
  assert (Hstill : VideoGenerator.isGenerating
                     (VideoGenerator.run JSON_parse job params events s) = true).
  { revert s Hgen. induction events as [|ev events IH]; intros s Hgen; [exact Hgen|].
    cbn [existsb] in Hnone. apply orb_false_elim in Hnone as [Hev Hrest].
    unfold VideoGenerator.run, Socket.run in *. cbn [foldl].
    apply (IH Hrest). now apply dispatch_keeps_generating. }
  split; [exact Hstill|].
  unfold VideoGenerator.canGenerate. rewrite Hstill. now rewrite andb_false_r.
Qed.

Lemma only_terminal_messages_reenable_generate_witness :
  VideoGenerator.canGenerate
    (GenerationParams.mk "a red kite" 512 512 33 42 24 GenerationParams.distilled)
    (VideoGenerator.run (fun _ => Throw SyntaxError) (JObj [("job_id", JStr "job-1")])
       (GenerationParams.mk "a red kite" 512 512 33 42 24 GenerationParams.distilled)
       [WsMessage "Traceback"; WsError; WsClose]
       (VideoGenerator.mkState VideoGenerator.Status.processing (JNum 40)
          (JStr "Denoising") (Value JUndefined) JUndefined [] [JStr "job-1"] 0))
  = false.
Proof.
  apply (only_terminal_messages_reenable_generate (fun _ => Throw SyntaxError)
           (JObj [("job_id", JStr "job-1")])
           (GenerationParams.mk "a red kite" 512 512 33 42 24 GenerationParams.distilled)
           [WsMessage "Traceback"; WsError; WsClose]
           (VideoGenerator.mkState VideoGenerator.Status.processing (JNum 40)
              (JStr "Denoising") (Value JUndefined) JUndefined [] [JStr "job-1"] 0)
           eq_refl eq_refl).
Defined.

(** ** A space typed after the extra arguments *)

Lemma split_from_trailing_space (args : list string) :
  Forall (fun piece => ParameterPanel.is_argument piece = true) args →
  List.filter (fun piece => negb (String.eqb piece EmptyString))
    (ParameterPanel.split_from EmptyString
       (ParameterPanel.join args +:+ String " " EmptyString))
  = args.
Proof.
  induction 1 as [|t args Ht Hargs IH]; [reflexivity|].
  unfold ParameterPanel.is_argument in Ht.
  apply andb_prop in Ht as [Hne Hsp].
  destruct args as [|t' args].
  - cbn [ParameterPanel.join]. rewrite split_from_token_space by exact Hsp.
    change (EmptyString +:+ t) with t. cbn [List.filter ParameterPanel.split_from].
    now rewrite Hne.
  - change (ParameterPanel.join (t :: t' :: args))
      with (t +:+ String " " (ParameterPanel.join (t' :: args))).
    rewrite append_assoc.
    change (String " " (ParameterPanel.join (t' :: args)) +:+ String " " EmptyString)
      with (String " " (ParameterPanel.join (t' :: args) +:+ String " " EmptyString)).
    rewrite split_from_token_space by exact Hsp.
    change (EmptyString +:+ t) with t. cbn [List.filter].
    rewrite Hne. f_equal. exact IH.
Qed.

(** X28: a space typed at the end of the extra arguments field is not kept:
    the list stored is the one stored before, so the field, which shows
    the stored list joined by single spaces, shows its text without the
    space. *)
Theorem trailing_space_is_dropped (args : list string) :
  Forall (fun piece => ParameterPanel.is_argument piece = true) args →
  ParameterPanel.extra_args_onChange
    (ParameterPanel.extra_args_value (Some args) +:+ String " " EmptyString)
  = args
  ∧ ParameterPanel.extra_args_value
      (Some (ParameterPanel.extra_args_onChange
               (ParameterPanel.extra_args_value (Some args) +:+ String " " EmptyString)))
    = ParameterPanel.extra_args_value (Some args).
Proof.
  intros Hargs.
  assert (Heq : ParameterPanel.extra_args_onChange
                  (ParameterPanel.extra_args_value (Some args) +:+ String " " EmptyString)
                = args).
  { unfold ParameterPanel.extra_args_onChange, ParameterPanel.extra_args_value,
      ParameterPanel.split.
    cbn [default from_option id]. now apply split_from_trailing_space. }
  split; [exact Heq|now rewrite Heq].
Qed.

Lemma trailing_space_is_dropped_witness :
  ParameterPanel.extra_args_onChange
    (ParameterPanel.extra_args_value (Some ["--seed"]) +:+ String " " EmptyString)
  = ["--seed"].
Proof.
  apply (proj1 (trailing_space_is_dropped ["--seed"] ltac:(repeat constructor))).
Defined.
